(** * QuantEdge: the strategy and position-lifecycle engine

    A shallow embedding of [TradingEngine] (src/trading_engine.py): the
    signal detector [check_signal], the risk sizer
    ([calculate_position_size], [calculate_stops],
    [calculate_liquidation_price]), the position manager
    ([should_exit_position], [open_position], [close_position]) and
    [analyze_performance].

    Numbers.  Prices, capital and indicator values are Python numbers; they
    are embedded as exact rationals [Q], compared with [==] where the value
    is the point and with [=] where the code stores the very value it has
    computed.  Rounding of binary floating point, infinities and NaN are
    outside this model.  Python's [/] raises [ZeroDivisionError] on a zero
    divisor: every division by a variable goes through [pydiv].

    Effects.  The engine is an object mutated in place; a method is a
    function from the engine before the call to the engine after it paired
    with the outcome, which is a value or a raised exception.  A method
    that raises keeps the mutations made before the raise. *)

From Stdlib Require Import ZArith QArith Qabs Qminmax Lqa Lia List Bool.
Import ListNotations.
Open Scope Q_scope.

(** ** Python values *)

Inductive exn : Type := ZeroDivisionError | IndexError.

Inductive result (A : Type) : Type :=
| Ok (a : A)
| Raise (e : exn).
Arguments Ok {A} a.
Arguments Raise {A} e.

Definition bind {A B : Type} (r : result A) (k : A -> result B) : result B :=
  match r with
  | Ok a => k a
  | Raise e => Raise e
  end.

Notation "x <- r ;; k" := (bind r (fun x => k))
  (at level 61, r at next level, right associativity).

(** [x < y], [x <= y] and [x == y] on numbers, as booleans. *)
Definition Qltb (x y : Q) : bool := negb (Qle_bool y x).
Definition Qleb (x y : Q) : bool := Qle_bool x y.
Definition Qeqb (x y : Q) : bool := Qeq_bool x y.

(** [x / y]. *)
Definition pydiv (x y : Q) : result Q :=
  if Qeqb y 0 then Raise ZeroDivisionError else Ok (x / y).

(** [min(x, y)]: the first argument unless the second is strictly smaller. *)
Definition py_min (x y : Q) : Q := if Qltb y x then y else x.

(** Direction of a signal or position: the strings ['long'] and ['short']. *)
Inductive side : Type := Long | Short.

(** The pattern tags written by [check_signal], and the default ['unknown']
    of [signal.get('pattern', 'unknown')]. *)
Inductive pattern_tag : Type :=
| trend_pullback | bb_bounce | bb_rejection | breakout | breakdown
| momentum | unknown.

(** The close reasons used in this repository. *)
Inductive reason : Type :=
| LIQUIDATION | TRAILING_STOP | STOP_LOSS | TAKE_PROFIT
| END_OF_DATA | MANUAL_STOP.

Definition reason_eqb (a b : reason) : bool :=
  match a, b with
  | LIQUIDATION, LIQUIDATION | TRAILING_STOP, TRAILING_STOP
  | STOP_LOSS, STOP_LOSS | TAKE_PROFIT, TAKE_PROFIT
  | END_OF_DATA, END_OF_DATA | MANUAL_STOP, MANUAL_STOP => true
  | _, _ => false
  end.

(** Calendar values.  A day is its ordinal number.  [DateOnly] is a
    [datetime.date]; [DateTime] is a [datetime.datetime] or a
    [pandas.Timestamp] (a day and the time within it). *)
Inductive stamp : Type :=
| DateOnly (day : Z)
| DateTime (day : Z) (tod : Z).

(** What callers pass as [timestamp]: a calendar value or anything else. *)
Inductive timestamp : Type :=
| Stamp (s : stamp)
| Opaque (tag : Z).

(** [timestamp if hasattr(timestamp, 'date') else None].  Only the
    date-time classes have a [date] attribute; a [datetime.date] has none. *)
Definition stamp_if_has_date (t : timestamp) : option stamp :=
  match t with
  | Stamp (DateTime d tod) => Some (DateTime d tod)
  | _ => None
  end.

(** [s != d] for a [datetime.date] [d].  Two dates differ when their days
    differ.  A date-time never compares equal to a date, whatever its day:
    CPython's [datetime] answers [!=] with [True] for a date operand, and
    [pandas.Timestamp] follows it. *)
Definition py_ne_date (s : stamp) (d : Z) : bool :=
  match s with
  | DateOnly d' => negb (d' =? d)%Z
  | DateTime _ _ => true
  end.

(** ** Data model *)

(** A signal dictionary.  [confidence] and [pattern] are read with
    [signal.get], so they may be absent. *)
Module Signal.
Record t : Type := mk {
  type : side;
  price : Q;
  atr : Q;
  pattern : option pattern_tag;
  confidence : option Q
}.
End Signal.

(** The position dictionary; the key ['trailing_stop'] is absent until the
    trailing stop is armed. *)
Module Position.
Record t : Type := mk {
  type : side;
  entry_price : Q;
  size : Q;
  stop_loss : Q;
  take_profit : Q;
  liquidation_price : Q;
  entry_time : timestamp;
  entry_capital : Q;
  confidence : Q;
  pattern : pattern_tag;
  trailing_stop : option Q
}.

Definition set_trailing_stop (p : t) (v : Q) : t :=
  mk (type p) (entry_price p) (size p) (stop_loss p) (take_profit p)
     (liquidation_price p) (entry_time p) (entry_capital p) (confidence p)
     (pattern p) (Some v).
End Position.

(** A trade record. *)
Module Trade.
Record t : Type := mk {
  entry_time : timestamp;
  exit_time : timestamp;
  type : side;
  entry_price : Q;
  exit_price : Q;
  size : Q;
  pnl : Q;
  pnl_percent : Q;
  reason_ : reason;
  pattern : pattern_tag
}.
End Trade.

(** The attributes of [TradingEngine] that the modelled methods read or
    write ([__init__], lines 25-55). *)
Record Engine : Type := mkEngine {
  initial_capital : Q;
  capital : Q;
  leverage : Q;
  risk_per_trade : Q;
  stop_atr_multiplier : Q;
  target_atr_multiplier : Q;
  trailing_activation : Q;
  max_trades_per_day : Z;
  daily_loss_limit : Q;
  position : option Position.t;
  trades : list Trade.t;
  daily_pnl : Q;
  daily_trade_count : Z;
  last_trade_date : option stamp
}.

(** [TradingEngine.__init__] with its defaults for the risk settings. *)
Definition init (initial_capital_ leverage_ risk_per_trade_ : Q) : Engine :=
  {| initial_capital := initial_capital_;
     capital := initial_capital_;
     leverage := leverage_;
     risk_per_trade := risk_per_trade_;
     stop_atr_multiplier := 2;
     target_atr_multiplier := 7 # 2;
     trailing_activation := 3 # 2;
     max_trades_per_day := 8;
     daily_loss_limit := 8 # 100;
     position := None;
     trades := [];
     daily_pnl := 0;
     daily_trade_count := 0;
     last_trade_date := None |}.

(** Assignments to single attributes. *)
Definition set_capital (self : Engine) (v : Q) : Engine :=
  mkEngine (initial_capital self) v (leverage self) (risk_per_trade self)
    (stop_atr_multiplier self) (target_atr_multiplier self)
    (trailing_activation self) (max_trades_per_day self)
    (daily_loss_limit self) (position self) (trades self) (daily_pnl self)
    (daily_trade_count self) (last_trade_date self).

Definition set_position (self : Engine) (v : option Position.t) : Engine :=
  mkEngine (initial_capital self) (capital self) (leverage self)
    (risk_per_trade self) (stop_atr_multiplier self)
    (target_atr_multiplier self) (trailing_activation self)
    (max_trades_per_day self) (daily_loss_limit self) v (trades self)
    (daily_pnl self) (daily_trade_count self) (last_trade_date self).

Definition set_trades (self : Engine) (v : list Trade.t) : Engine :=
  mkEngine (initial_capital self) (capital self) (leverage self)
    (risk_per_trade self) (stop_atr_multiplier self)
    (target_atr_multiplier self) (trailing_activation self)
    (max_trades_per_day self) (daily_loss_limit self) (position self) v
    (daily_pnl self) (daily_trade_count self) (last_trade_date self).

Definition set_daily_pnl (self : Engine) (v : Q) : Engine :=
  mkEngine (initial_capital self) (capital self) (leverage self)
    (risk_per_trade self) (stop_atr_multiplier self)
    (target_atr_multiplier self) (trailing_activation self)
    (max_trades_per_day self) (daily_loss_limit self) (position self)
    (trades self) v (daily_trade_count self) (last_trade_date self).

Definition set_daily_trade_count (self : Engine) (v : Z) : Engine :=
  mkEngine (initial_capital self) (capital self) (leverage self)
    (risk_per_trade self) (stop_atr_multiplier self)
    (target_atr_multiplier self) (trailing_activation self)
    (max_trades_per_day self) (daily_loss_limit self) (position self)
    (trades self) (daily_pnl self) v (last_trade_date self).

Definition set_last_trade_date (self : Engine) (v : option stamp) : Engine :=
  mkEngine (initial_capital self) (capital self) (leverage self)
    (risk_per_trade self) (stop_atr_multiplier self)
    (target_atr_multiplier self) (trailing_activation self)
    (max_trades_per_day self) (daily_loss_limit self) (position self)
    (trades self) (daily_pnl self) (daily_trade_count self) v.

(** ** RiskSizer *)

(** [calculate_position_size] (lines 293-305). *)
Definition calculate_position_size (self : Engine)
    (entry_price stop_loss_price confidence : Q) : result Q :=
  let risk_amount := capital self * risk_per_trade self * confidence in
  let stop_distance := Qabs (entry_price - stop_loss_price) in
  if Qeqb stop_distance 0 then Ok 0
  else
    q <- pydiv risk_amount stop_distance ;;
    let position_size := q * leverage self in
    let max_position := capital self * leverage self * (1 # 2) in
    Ok (py_min position_size max_position).

(** [calculate_stops] (lines 307-316). *)
Definition calculate_stops (self : Engine) (entry_price : Q)
    (signal_type : side) (atr : Q) : Q * Q :=
  match signal_type with
  | Long =>
      (entry_price - atr * stop_atr_multiplier self,
       entry_price + atr * target_atr_multiplier self)
  | Short =>
      (entry_price + atr * stop_atr_multiplier self,
       entry_price - atr * target_atr_multiplier self)
  end.

(** [calculate_liquidation_price] (lines 318-323). *)
Definition calculate_liquidation_price (self : Engine) (entry_price : Q)
    (position_type : side) : result Q :=
  match position_type with
  | Long => q <- pydiv (9 # 10) (leverage self) ;; Ok (entry_price * (1 - q))
  | Short => q <- pydiv (9 # 10) (leverage self) ;; Ok (entry_price * (1 + q))
  end.

(** ** PositionManager *)

(** Truth value of [current_atr]: [None] and zero are false. *)
Definition truthy (current_atr : option Q) : bool :=
  match current_atr with
  | Some a => negb (Qeqb a 0)
  | None => false
  end.

(** The block [# Regular stops] of [should_exit_position] (lines
    363-375). *)
Definition regular_stops (position_type : side)
    (stop_loss take_profit current_price : Q) : bool * option reason :=
  match position_type with
  | Long =>
      if Qleb current_price stop_loss then (true, Some STOP_LOSS)
      else if Qleb take_profit current_price then (true, Some TAKE_PROFIT)
      else (false, None)
  | Short =>
      if Qleb stop_loss current_price then (true, Some STOP_LOSS)
      else if Qleb current_price take_profit then (true, Some TAKE_PROFIT)
      else (false, None)
  end.

(** The update of [self.position['trailing_stop']] (lines 351-353 and
    357-359): the candidate is stored when the key is absent or when the
    candidate is strictly tighter than the stored value. *)
Definition update_trailing (pos : Position.t) (trailing : Q) : Position.t :=
  match Position.trailing_stop pos with
  | None => Position.set_trailing_stop pos trailing
  | Some stored =>
      match Position.type pos with
      | Long =>
          if Qltb stored trailing then Position.set_trailing_stop pos trailing
          else pos
      | Short =>
          if Qltb trailing stored then Position.set_trailing_stop pos trailing
          else pos
      end
  end.

(** [should_exit_position] (lines 325-375). *)
Definition should_exit_position (self : Engine) (current_price : Q)
    (current_atr : option Q) : Engine * result (bool * option reason) :=
  match position self with
  | None => (self, Ok (false, None))
  | Some pos =>
      let position_type := Position.type pos in
      let entry_price := Position.entry_price pos in
      let stop_loss := Position.stop_loss pos in
      let take_profit := Position.take_profit pos in
      let liquidation := Position.liquidation_price pos in
      match
        match position_type with
        | Long => pydiv (current_price - entry_price) entry_price
        | Short => pydiv (entry_price - current_price) entry_price
        end
      with
      | Raise e => (self, Raise e)
      | Ok q =>
          let pnl_pct := q * 100 in
          match position_type with
          | Long =>
              if Qleb current_price liquidation
              then (self, Ok (true, Some LIQUIDATION))
              else if truthy current_atr
                      && Qltb (trailing_activation self) pnl_pct
              then
                let trailing :=
                  current_price
                  - (match current_atr with Some a => a | None => 0 end
                     * stop_atr_multiplier self * (3 # 4)) in
                let pos' := update_trailing pos trailing in
                let self' := set_position self (Some pos') in
                match Position.trailing_stop pos' with
                | Some stored =>
                    if Qleb current_price stored
                    then (self', Ok (true, Some TRAILING_STOP))
                    else (self', Ok (regular_stops position_type stop_loss
                                       take_profit current_price))
                | None =>
                    (self', Ok (regular_stops position_type stop_loss
                                  take_profit current_price))
                end
              else (self, Ok (regular_stops position_type stop_loss
                                take_profit current_price))
          | Short =>
              if Qleb liquidation current_price
              then (self, Ok (true, Some LIQUIDATION))
              else if truthy current_atr
                      && Qltb (trailing_activation self) pnl_pct
              then
                let trailing :=
                  current_price
                  + (match current_atr with Some a => a | None => 0 end
                     * stop_atr_multiplier self * (3 # 4)) in
                let pos' := update_trailing pos trailing in
                let self' := set_position self (Some pos') in
                match Position.trailing_stop pos' with
                | Some stored =>
                    if Qleb stored current_price
                    then (self', Ok (true, Some TRAILING_STOP))
                    else (self', Ok (regular_stops position_type stop_loss
                                       take_profit current_price))
                | None =>
                    (self', Ok (regular_stops position_type stop_loss
                                  take_profit current_price))
                end
              else (self, Ok (regular_stops position_type stop_loss
                                take_profit current_price))
          end
      end
  end.

(** [open_position] (lines 377-409). *)
Definition open_position (self : Engine) (signal : Signal.t)
    (timestamp_ : timestamp) : Engine * result bool :=
  let entry_price := Signal.price signal in
  let position_type := Signal.type signal in
  let atr := Signal.atr signal in
  let confidence :=
    match Signal.confidence signal with Some c => c | None => 1 end in
  let pattern :=
    match Signal.pattern signal with Some p => p | None => unknown end in
  let '(stop_loss, take_profit) :=
    calculate_stops self entry_price position_type atr in
  match calculate_position_size self entry_price stop_loss confidence with
  | Raise e => (self, Raise e)
  | Ok position_size =>
      if Qleb position_size 0 then (self, Ok false)
      else
        match calculate_liquidation_price self entry_price position_type with
        | Raise e => (self, Raise e)
        | Ok liquidation_price =>
            let self1 :=
              set_position self
                (Some (Position.mk position_type entry_price position_size
                         stop_loss take_profit liquidation_price timestamp_
                         (capital self) confidence pattern None)) in
            let self2 :=
              set_daily_trade_count self1 (daily_trade_count self1 + 1) in
            let self3 :=
              set_last_trade_date self2 (stamp_if_has_date timestamp_) in
            (self3, Ok true)
        end
  end.

(** [close_position] (lines 411-448).  [self.capital += pnl] comes before
    the division that computes [pnl_percent]. *)
Definition close_position (self : Engine) (exit_price : Q)
    (timestamp_ : timestamp) (reason__ : reason)
    : Engine * result (option Trade.t) :=
  match position self with
  | None => (self, Ok None)
  | Some pos =>
      let position_type := Position.type pos in
      let entry_price := Position.entry_price pos in
      let size := Position.size pos in
      let pnl0 :=
        match position_type with
        | Long => (exit_price - entry_price) * size
        | Short => (entry_price - exit_price) * size
        end in
      let pnl :=
        if reason_eqb reason__ LIQUIDATION
        then - Position.entry_capital pos * (9 # 10)
        else pnl0 in
      let self1 := set_capital self (capital self + pnl) in
      match pydiv pnl (Position.entry_capital pos) with
      | Raise e => (self1, Raise e)
      | Ok q =>
          let pnl_percent := q * 100 in
          let self2 := set_daily_pnl self1 (daily_pnl self1 + pnl) in
          let trade_record :=
            Trade.mk (Position.entry_time pos) timestamp_ position_type
              entry_price exit_price size pnl pnl_percent reason__
              (Position.pattern pos) in
          let self3 := set_trades self2 (trades self2 ++ [trade_record]) in
          let self4 := set_position self3 None in
          (self4, Ok (Some trade_record))
      end
  end.

(** ** SignalDetector *)

(** One row of the indicator-augmented dataframe: the index ([name], a
    timestamp, given by its day and its time within the day) and the columns
    that [check_signal] reads. *)
Module Row.
Record t : Type := mk {
  name_day : Z;
  name_tod : Z;
  open : Q;
  high : Q;
  low : Q;
  close : Q;
  ema_short : Q;
  ema_mid : Q;
  ema_long : Q;
  rsi : Q;
  macd : Q;
  macd_signal : Q;
  macd_hist : Q;
  bb_pband : Q;
  atr : Q;
  volume_ratio : Q;
  body : Q;
  upper_wick : Q;
  lower_wick : Q;
  range : Q;
  price_change : Q;
  ema_alignment_bull : bool;
  ema_alignment_bear : bool
}.

(** [row.name], as the drivers pass it to [open_position]. *)
Definition name (r : t) : timestamp :=
  Stamp (DateTime (name_day r) (name_tod r)).
End Row.

Definition dataframe : Type := list Row.t.

(** [df.iloc[a:b]] for [0 <= a]: the rows at positions [a], ..., [b-1]. *)
Definition iloc_slice (df : dataframe) (a b : Z) : list Row.t :=
  firstn (Z.to_nat (b - a)) (skipn (Z.to_nat a) df).

(** [Series.max()] and [Series.min()]; an empty series has none (NaN). *)
Definition series_max (xs : list Q) : option Q :=
  match xs with
  | [] => None
  | x :: rest => Some (fold_left (fun m y => if Qltb m y then y else m) rest x)
  end.

Definition series_min (xs : list Q) : option Q :=
  match xs with
  | [] => None
  | x :: rest => Some (fold_left (fun m y => if Qltb y m then y else m) rest x)
  end.

(** The block [# Reset daily limits] (lines 124-127). *)
Definition reset_daily_limits (self : Engine) (current : Row.t) : Engine :=
  match last_trade_date self with
  | Some s =>
      if py_ne_date s (Row.name_day current)
      then set_daily_pnl (set_daily_trade_count self 0) 0
      else self
  | None => self
  end.

(** The two limit checks (lines 129-133). *)
Definition limit_reached (self : Engine) : bool :=
  (max_trades_per_day self <=? daily_trade_count self)%Z
  || Qltb (daily_pnl self) (- daily_loss_limit self * capital self).

(** Pattern 1, trend pullback (lines 139-184). *)
Definition trend_pullback_long (current prev prev2 : Row.t) : bool :=
  let uptrend_context :=
    Row.ema_alignment_bull current
    || Qltb (Row.ema_long current) (Row.ema_short current) in
  let pullback_complete :=
    Qltb (Row.close prev2) (Row.ema_short prev2)
    && Qltb (Row.close prev) (Row.ema_short prev)
    && Qltb (Row.ema_short current) (Row.close current) in
  let rsi_oversold_recovery :=
    Qltb (Row.rsi prev) 45 && Qltb 45 (Row.rsi current) in
  let macd_turning := Qltb (Row.macd_hist prev) (Row.macd_hist current) in
  let bullish_momentum :=
    Qltb 0 (Row.price_change current)
    && Qltb (Row.range current * (1 # 2)) (Row.body current) in
  uptrend_context && (pullback_complete || rsi_oversold_recovery)
  && (macd_turning || bullish_momentum).

Definition trend_pullback_short (current prev prev2 : Row.t) : bool :=
  let downtrend_context :=
    Row.ema_alignment_bear current
    || Qltb (Row.ema_short current) (Row.ema_long current) in
  let rally_complete :=
    Qltb (Row.ema_short prev2) (Row.close prev2)
    && Qltb (Row.ema_short prev) (Row.close prev)
    && Qltb (Row.close current) (Row.ema_short current) in
  let rsi_overbought_rejection :=
    Qltb 55 (Row.rsi prev) && Qltb (Row.rsi current) 55 in
  let macd_weakening := Qltb (Row.macd_hist current) (Row.macd_hist prev) in
  let bearish_momentum :=
    Qltb (Row.price_change current) 0
    && Qltb (Row.range current * (1 # 2)) (Row.body current) in
  downtrend_context && (rally_complete || rsi_overbought_rejection)
  && (macd_weakening || bearish_momentum).

(** Pattern 2, mean reversion (lines 189-217). *)
Definition ranging (current : Row.t) : bool :=
  negb (Row.ema_alignment_bull current)
  && negb (Row.ema_alignment_bear current).

Definition bb_bounce_long (current : Row.t) : bool :=
  let at_lower_bb := Qltb (Row.bb_pband current) (15 # 100) in
  let rsi_oversold := Qltb (Row.rsi current) 35 in
  let hammer_candle :=
    Qltb (Row.body current * (3 # 2)) (Row.lower_wick current) in
  ranging current && at_lower_bb && rsi_oversold
  && (hammer_candle || Qltb 0 (Row.price_change current)).

Definition bb_rejection_short (current : Row.t) : bool :=
  let at_upper_bb := Qltb (85 # 100) (Row.bb_pband current) in
  let rsi_overbought := Qltb 65 (Row.rsi current) in
  let shooting_star :=
    Qltb (Row.body current * (3 # 2)) (Row.upper_wick current) in
  ranging current && at_upper_bb && rsi_overbought
  && (shooting_star || Qltb (Row.price_change current) 0).

(** Pattern 3, momentum breakout (lines 223-252).  A comparison with the
    maximum or minimum of an empty slice is false. *)
Definition consolidating (df : dataframe) (i : Z) (current : Row.t) : bool :=
  match series_max (map Row.high (iloc_slice df (i - 5) i)),
        series_min (map Row.low (iloc_slice df (i - 5) i)) with
  | Some hi, Some lo => Qltb (hi - lo) (Row.atr current * 3)
  | _, _ => false
  end.

Definition breaking_higher (df : dataframe) (i : Z) (current : Row.t) : bool :=
  match series_max (map Row.high (iloc_slice df (i - 5) (i - 1))) with
  | Some hi => Qltb hi (Row.close current)
  | None => false
  end.

Definition breaking_lower (df : dataframe) (i : Z) (current : Row.t) : bool :=
  match series_min (map Row.low (iloc_slice df (i - 5) (i - 1))) with
  | Some lo => Qltb (Row.close current) lo
  | None => false
  end.

Definition volume_surge (current : Row.t) : bool :=
  Qltb (3 # 2) (Row.volume_ratio current).

Definition breakout_long (df : dataframe) (i : Z) (current : Row.t) : bool :=
  let macd_bullish := Qltb (Row.macd_signal current) (Row.macd current) in
  consolidating df i current && breaking_higher df i current
  && volume_surge current && macd_bullish.

Definition breakdown_short (df : dataframe) (i : Z) (current : Row.t) : bool :=
  let macd_bearish := Qltb (Row.macd current) (Row.macd_signal current) in
  consolidating df i current && breaking_lower df i current
  && volume_surge current && macd_bearish.

(** Pattern 4, simple momentum (lines 258-289). *)
Definition momentum_long (current : Row.t) : bool :=
  let strong_green_candle :=
    Qltb (Row.open current) (Row.close current)
    && Qltb (Row.range current * (7 # 10)) (Row.body current)
    && Qltb (1 # 2) (Row.price_change current) in
  let rsi_bullish :=
    Qltb 40 (Row.rsi current) && Qltb (Row.rsi current) 70 in
  let ema_support := Qltb (Row.ema_mid current) (Row.close current) in
  strong_green_candle && rsi_bullish && ema_support
  && Qltb (12 # 10) (Row.volume_ratio current).

Definition momentum_short (current : Row.t) : bool :=
  let strong_red_candle :=
    Qltb (Row.close current) (Row.open current)
    && Qltb (Row.range current * (7 # 10)) (Row.body current)
    && Qltb (Row.price_change current) (- (1 # 2)) in
  let rsi_bearish :=
    Qltb 30 (Row.rsi current) && Qltb (Row.rsi current) 60 in
  let ema_resistance := Qltb (Row.close current) (Row.ema_mid current) in
  strong_red_candle && rsi_bearish && ema_resistance
  && Qltb (12 # 10) (Row.volume_ratio current).

(** The dictionary returned for a match. *)
Definition make_signal (t : side) (current : Row.t) (p : pattern_tag)
    (c : Q) : Signal.t :=
  Signal.mk t (Row.close current) (Row.atr current) (Some p) (Some c).

(** The pattern cascade (lines 135-291): the first match wins. *)
Definition detect_pattern (df : dataframe) (i : Z)
    (current prev prev2 : Row.t) : option Signal.t :=
  if trend_pullback_long current prev prev2
  then Some (make_signal Long current trend_pullback (7 # 10))
  else if trend_pullback_short current prev prev2
  then Some (make_signal Short current trend_pullback (7 # 10))
  else if bb_bounce_long current
  then Some (make_signal Long current bb_bounce (6 # 10))
  else if bb_rejection_short current
  then Some (make_signal Short current bb_rejection (6 # 10))
  else if breakout_long df i current
  then Some (make_signal Long current breakout (8 # 10))
  else if breakdown_short df i current
  then Some (make_signal Short current breakdown (8 # 10))
  else if momentum_long current
  then Some (make_signal Long current momentum (5 # 10))
  else if momentum_short current
  then Some (make_signal Short current momentum (5 # 10))
  else None.

(** [df.iloc[k]] for [0 <= k]. *)
Definition iloc (df : dataframe) (k : Z) : result Row.t :=
  match nth_error df (Z.to_nat k) with
  | Some r => Ok r
  | None => Raise IndexError
  end.

(** [check_signal] (lines 109-291).  [i = None] is the call without an
    index. *)
Definition check_signal (self : Engine) (df : dataframe) (i : option Z)
    : Engine * result (option Signal.t) :=
  let i := match i with Some i => i | None => (-1)%Z end in
  if (i <? 5)%Z then (self, Ok None)
  else
    match
      current <- iloc df i ;;
      prev <- iloc df (i - 1) ;;
      prev2 <- iloc df (i - 2) ;;
      Ok (current, prev, prev2)
    with
    | Raise e => (self, Raise e)
    | Ok (current, prev, prev2) =>
        let self1 := reset_daily_limits self current in
        if limit_reached self1 then (self1, Ok None)
        else (self1, Ok (detect_pattern df i current prev prev2))
    end.

(** ** PerformanceAnalyzer *)

(** A number or [float('inf')]. *)
Inductive qinf : Type :=
| Fin (q : Q)
| PosInf.

(** The dictionary returned by [analyze_performance].  The key
    ['sharpe_ratio'] is left out: it is [sqrt(252)] times a ratio with a
    standard deviation, which is no rational number. *)
Module Performance.
Record t : Type := mk {
  total_trades : Z;
  winning_trades : Z;
  losing_trades : Z;
  win_rate : Q;
  profit_factor : qinf;
  net_profit : Q;
  avg_win : Q;
  avg_loss : Q;
  expectancy : Q;
  max_consecutive_losses : Z;
  roi : Q
}.
End Performance.

(** [Series.sum()] and [Series.mean()]. *)
Definition series_sum (xs : list Q) : Q := fold_left Qplus xs 0.

Definition series_mean (xs : list Q) : Q :=
  series_sum xs / inject_Z (Z.of_nat (length xs)).

(** [trades_df[trades_df['pnl'] > 0]['pnl']] and
    [trades_df[trades_df['pnl'] <= 0]['pnl']]. *)
Definition winning_pnl (ts : list Trade.t) : list Q :=
  filter (fun p => Qltb 0 p) (map Trade.pnl ts).

Definition losing_pnl (ts : list Trade.t) : list Q :=
  filter (fun p => Qleb p 0) (map Trade.pnl ts).

(** The ['loss_streak'] column (lines 476-479): within each run of equal
    ['is_loss'] values the running sum of ['is_loss']. *)
Fixpoint loss_streak (run : Z) (pnls : list Q) : list Z :=
  match pnls with
  | [] => []
  | p :: rest =>
      let run' := if Qleb p 0 then (run + 1)%Z else 0%Z in
      run' :: loss_streak run' rest
  end.

(** [analyze_performance] (lines 450-495). *)
Definition analyze_performance (self : Engine)
    : result (option Performance.t) :=
  match trades self with
  | [] => Ok None
  | _ =>
      let trades_df := trades self in
      let total_trades := Z.of_nat (length trades_df) in
      let winning_trades := Z.of_nat (length (winning_pnl trades_df)) in
      let losing_trades := (total_trades - winning_trades)%Z in
      q <- pydiv (inject_Z winning_trades) (inject_Z total_trades) ;;
      let win_rate := q * 100 in
      let total_profit := series_sum (winning_pnl trades_df) in
      let total_loss := Qabs (series_sum (losing_pnl trades_df)) in
      let net_profit := series_sum (map Trade.pnl trades_df) in
      profit_factor <-
        (if Qltb 0 total_loss
         then f <- pydiv total_profit total_loss ;; Ok (Fin f)
         else Ok PosInf) ;;
      let avg_win :=
        if (0 <? winning_trades)%Z
        then series_mean (winning_pnl trades_df) else 0 in
      let avg_loss :=
        if (0 <? losing_trades)%Z
        then Qabs (series_mean (losing_pnl trades_df)) else 0 in
      let expectancy :=
        (win_rate / 100 * avg_win) - ((1 - win_rate / 100) * avg_loss) in
      let max_consecutive_losses :=
        fold_left Z.max (loss_streak 0 (map Trade.pnl trades_df)) 0%Z in
      r <- pydiv (capital self - initial_capital self)
             (initial_capital self) ;;
      Ok (Some (Performance.mk total_trades winning_trades losing_trades
                  win_rate profit_factor net_profit avg_win avg_loss
                  expectancy max_consecutive_losses (r * 100)))
  end.

(** ** Vocabulary of the properties *)

(** [never_loosens t old new]: going from [old] to [new] does not move the
    trailing stop against the favourable direction of a [t] position. *)
Definition never_loosens (t : side) (old new : Q) : Prop :=
  match t with
  | Long => old <= new
  | Short => new <= old
  end.

(** Successive exit evaluations of one position, one per (price, ATR). *)
Fixpoint exit_evaluations (self : Engine) (inputs : list (Q * option Q))
    : Engine :=
  match inputs with
  | [] => self
  | (current_price, current_atr) :: rest =>
      exit_evaluations
        (fst (should_exit_position self current_price current_atr)) rest
  end.

(** The realized P&L that [close_position] computes (lines 420-426). *)
Definition realized_pnl (pos : Position.t) (exit_price : Q) (r : reason) : Q :=
  if reason_eqb r LIQUIDATION
  then - Position.entry_capital pos * (9 # 10)
  else
    match Position.type pos with
    | Long => (exit_price - Position.entry_price pos) * Position.size pos
    | Short => (Position.entry_price pos - exit_price) * Position.size pos
    end.

(** ** The breakout pattern in the words of the specification *)

(** The [n] rows just before position [i]. *)
Definition prior_rows (df : dataframe) (i n : nat) : list Row.t :=
  firstn n (skipn (i - n) df).

(** The long breakout conditions as the specification words them: the
    trailing 5-row high-low range, current row excluded, is less than 3
    times the current ATR; the close exceeds the high of the prior 4 rows,
    current row excluded; the volume ratio exceeds 1.5; the convergence line
    is above its signal line. *)
Definition breakout_long_as_specified (df : dataframe) (i : nat) : Prop :=
  exists cur,
    nth_error df i = Some cur
    /\ (forall a b, In a (prior_rows df i 5) -> In b (prior_rows df i 5) ->
                    Row.high a - Row.low b < Row.atr cur * 3)
    /\ (forall a, In a (prior_rows df i 4) -> Row.high a < Row.close cur)
    /\ 3 # 2 < Row.volume_ratio cur
    /\ Row.macd_signal cur < Row.macd cur.

(** ** Sample inputs *)

(** The engine of the drivers' [__main__] blocks: capital 10000, leverage 3,
    2% risk per trade. *)
Definition engine0 : Engine := init 10000 3 (2 # 100).

Definition signal_a : Signal.t :=
  Signal.mk Long 100 2 (Some breakout) (Some 1).

Definition signal_b : Signal.t :=
  Signal.mk Short 200 4 (Some momentum) (Some (5 # 10)).

(** [engine0] after a long is opened at 100 on day 1, at midnight. *)
Definition engine_open : Engine :=
  fst (open_position engine0 signal_a (Stamp (DateTime 1 0))).

(** ... and closed at 104 a quarter of an hour later. *)
Definition engine_after_trade : Engine :=
  fst (close_position engine_open 104 (Stamp (DateTime 1 900)) TAKE_PROFIT).

(** A long from 100 whose trailing stop is armed at 102. *)
Definition pos_armed : Position.t :=
  Position.mk Long 100 150 96 107 70 (Stamp (DateTime 1 0)) 10000 1 breakout
    (Some 102).

Definition engine_armed : Engine := set_position engine0 (Some pos_armed).

(** A row on which no pattern but the breakout can match: flat averages, a
    doji candle, mid-band, neutral oscillator, volume ratio 2, convergence
    line above its signal line, ATR 2. *)
Definition plain_row (day tod : Z) (high_ low_ close_ : Q) : Row.t :=
  Row.mk day tod close_ high_ low_ close_ close_ close_ close_ 50 1 0 0
    (1 # 2) 2 2 0 0 0 (high_ - low_) 0 false false.

(** Six quarter-hour rows of day 1 in a 9-10 range. *)
Definition df_day1 : dataframe :=
  [ plain_row 1 0 10 9 (19 # 2); plain_row 1 900 10 9 (19 # 2);
    plain_row 1 1800 10 9 (19 # 2); plain_row 1 2700 10 9 (19 # 2);
    plain_row 1 3600 10 9 (19 # 2); plain_row 1 4500 10 9 (19 # 2) ].

(** Four rows with high 10, then a row with high 12, then a close at 11. *)
Definition df_spike : dataframe :=
  [ plain_row 1 0 10 9 (19 # 2); plain_row 1 900 10 9 (19 # 2);
    plain_row 1 1800 10 9 (19 # 2); plain_row 1 2700 10 9 (19 # 2);
    plain_row 1 3600 12 9 10; plain_row 1 4500 (23 # 2) 10 11 ].

(** Five rows with high 10, then a close at 11. *)
Definition df_breakout : dataframe :=
  [ plain_row 1 0 10 9 (19 # 2); plain_row 1 900 10 9 (19 # 2);
    plain_row 1 1800 10 9 (19 # 2); plain_row 1 2700 10 9 (19 # 2);
    plain_row 1 3600 10 9 (19 # 2); plain_row 1 4500 (23 # 2) 10 11 ].

Definition trade_win : Trade.t :=
  Trade.mk (Stamp (DateTime 1 0)) (Stamp (DateTime 1 900)) Long 100 101 50
    50 (1 # 2) TAKE_PROFIT breakout.

Definition trade_loss : Trade.t :=
  Trade.mk (Stamp (DateTime 1 1800)) (Stamp (DateTime 1 2700)) Long 100 99 50
    (- 50) (- (1 # 2)) STOP_LOSS breakout.

Definition engine_two_trades : Engine :=
  set_trades engine0 [trade_win; trade_loss].

(** ** Vocabulary of the further properties *)

(** [past_liquidation pos p]: the price [p] is at or beyond the liquidation
    price of [pos]. *)
Definition past_liquidation (pos : Position.t) (p : Q) : Prop :=
  match Position.type pos with
  | Long => p <= Position.liquidation_price pos
  | Short => Position.liquidation_price pos <= p
  end.

(** [inside_bracket pos p]: the price [p] is strictly between the stop-loss
    and the take-profit price of [pos]. *)
Definition inside_bracket (pos : Position.t) (p : Q) : Prop :=
  match Position.type pos with
  | Long => Position.stop_loss pos < p /\ p < Position.take_profit pos
  | Short => Position.take_profit pos < p /\ p < Position.stop_loss pos
  end.

(** The unrealized P&L of [pos] at price [p] in percent of the entry price
    (lines 337-340), for a non-zero entry price. *)
Definition unrealized_pct (pos : Position.t) (p : Q) : Q :=
  match Position.type pos with
  | Long => (p - Position.entry_price pos) / Position.entry_price pos * 100
  | Short => (Position.entry_price pos - p) / Position.entry_price pos * 100
  end.

(** [stop_crossed pos stored p]: the price [p] is at or beyond the trailing
    level [stored] of [pos]. *)
Definition stop_crossed (pos : Position.t) (stored p : Q) : Prop :=
  match Position.type pos with
  | Long => p <= stored
  | Short => stored <= p
  end.

(** One call of an engine method by a driver. *)
Inductive call : Type :=
| CheckSignal (df : dataframe) (i : option Z)
| ShouldExitPosition (current_price : Q) (current_atr : option Q)
| OpenPosition (signal : Signal.t) (ts : timestamp)
| ClosePosition (exit_price : Q) (ts : timestamp) (r : reason).

(** The engine after a call, whether the call returned or raised. *)
Definition perform (self : Engine) (c : call) : Engine :=
  match c with
  | CheckSignal df i => fst (check_signal self df i)
  | ShouldExitPosition p a => fst (should_exit_position self p a)
  | OpenPosition s ts => fst (open_position self s ts)
  | ClosePosition p ts r => fst (close_position self p ts r)
  end.

Definition perform_all (self : Engine) (cs : list call) : Engine :=
  fold_left perform cs self.

(** The capital is the initial capital plus the P&L of all logged trades. *)
Definition books_balanced (self : Engine) : Prop :=
  capital self
  == initial_capital self + series_sum (map Trade.pnl (trades self)).

(** An open position records a non-zero capital at entry. *)
Definition position_funded (self : Engine) : Prop :=
  forall pos, position self = Some pos -> ~ Position.entry_capital pos == 0.



(** ** Columns of [calculate_indicators] computed from one row *)

(** The candle-shape columns (lines 90-93) as functions of a candle, and the
    trend-context flags (lines 104-105) as functions of the three averages.
    The averages, the oscillators and the bands come from the [ta] library
    and are inputs here. *)
Module Indicators.
(** [df[['open', 'close']].max(axis=1)] and [.min(axis=1)], row by row. *)
Definition row_max (a b : Q) : Q := if Qltb a b then b else a.
Definition row_min (a b : Q) : Q := if Qltb b a then b else a.

Definition body (open_ close_ : Q) : Q := Qabs (close_ - open_).
Definition upper_wick (open_ high_ close_ : Q) : Q :=
  high_ - row_max open_ close_.
Definition lower_wick (open_ low_ close_ : Q) : Q :=
  row_min open_ close_ - low_.
Definition range (high_ low_ : Q) : Q := high_ - low_.

Definition ema_alignment_bull (ema_short_ ema_mid_ ema_long_ : Q) : bool :=
  Qltb ema_mid_ ema_short_ && Qltb ema_long_ ema_mid_.
Definition ema_alignment_bear (ema_short_ ema_mid_ ema_long_ : Q) : bool :=
  Qltb ema_short_ ema_mid_ && Qltb ema_mid_ ema_long_.
End Indicators.

(** A row whose trend-context flags are the ones [calculate_indicators]
    computes from its averages. *)
Definition flags_as_computed (r : Row.t) : Prop :=
  Row.ema_alignment_bull r
  = Indicators.ema_alignment_bull (Row.ema_short r) (Row.ema_mid r)
      (Row.ema_long r)
  /\ Row.ema_alignment_bear r
     = Indicators.ema_alignment_bear (Row.ema_short r) (Row.ema_mid r)
         (Row.ema_long r).

(** What a matched pattern tells about the current row. *)
Definition pattern_evidence (current : Row.t) (sig : Signal.t) : Prop :=
  exists p c,
    Signal.pattern sig = Some p
    /\ Signal.confidence sig = Some c
    /\ match p with
       | trend_pullback => c = 7 # 10
       | bb_bounce =>
           c = 6 # 10 /\ Signal.type sig = Long
           /\ Row.ema_alignment_bull current = false
           /\ Row.ema_alignment_bear current = false
           /\ Row.bb_pband current < 15 # 100 /\ Row.rsi current < 35
       | bb_rejection =>
           c = 6 # 10 /\ Signal.type sig = Short
           /\ Row.ema_alignment_bull current = false
           /\ Row.ema_alignment_bear current = false
           /\ 85 # 100 < Row.bb_pband current /\ 65 < Row.rsi current
       | breakout =>
           c = 8 # 10 /\ Signal.type sig = Long
           /\ 3 # 2 < Row.volume_ratio current
           /\ Row.macd_signal current < Row.macd current
       | breakdown =>
           c = 8 # 10 /\ Signal.type sig = Short
           /\ 3 # 2 < Row.volume_ratio current
           /\ Row.macd current < Row.macd_signal current
       | momentum =>
           c = 5 # 10 /\ 12 # 10 < Row.volume_ratio current
           /\ Row.range current * (7 # 10) < Row.body current
           /\ match Signal.type sig with
              | Long =>
                  Row.open current < Row.close current
                  /\ 1 # 2 < Row.price_change current
              | Short =>
                  Row.close current < Row.open current
                  /\ Row.price_change current < - (1 # 2)
              end
       | unknown => False
       end.

(** ** Drivers *)

(** Mark-to-market equity (backtester.py, lines 69-75; paper_trader_api.py,
    lines 361-367). *)
Definition current_equity (self : Engine) (current_price : Q) : Q :=
  match position self with
  | Some pos =>
      capital self
      + match Position.type pos with
        | Long =>
            (current_price - Position.entry_price pos) * Position.size pos
        | Short =>
            (Position.entry_price pos - current_price) * Position.size pos
        end
  | None => capital self
  end.

(** The exit check of the loops (backtester.py, lines 83-87;
    paper_trader.py, lines 155-160; paper_trader_api.py, lines 372-378).
    Printing and saving are left out.  [should_exit_position] returns a true
    flag only together with a reason, so the branch of a true flag without
    a reason is never taken. *)
Definition check_exit (self : Engine) (current_price current_atr : Q)
    (current_time : timestamp) : Engine * result unit :=
  match position self with
  | None => (self, Ok tt)
  | Some _ =>
      match should_exit_position self current_price (Some current_atr) with
      | (self1, Raise e) => (self1, Raise e)
      | (self1, Ok (should_exit, reason_)) =>
          if should_exit
          then
            match reason_ with
            | Some r =>
                match close_position self1 current_price current_time r with
                | (self2, Raise e) => (self2, Raise e)
                | (self2, Ok _) => (self2, Ok tt)
                end
            | None => (self1, Ok tt)
            end
          else (self1, Ok tt)
      end
  end.

(** The entry check of the loops (backtester.py, lines 90-94;
    paper_trader.py, lines 163-168; paper_trader_api.py, lines 381-386):
    [i] is the index passed to [check_signal], none in the live traders. *)
Definition check_entry (self : Engine) (df : dataframe) (i : option Z)
    (current_time : timestamp) : Engine * result unit :=
  match position self with
  | Some _ => (self, Ok tt)
  | None =>
      match check_signal self df i with
      | (self1, Raise e) => (self1, Raise e)
      | (self1, Ok None) => (self1, Ok tt)
      | (self1, Ok (Some signal)) =>
          match open_position self1 signal current_time with
          | (self2, Raise e) => (self2, Raise e)
          | (self2, Ok _) => (self2, Ok tt)
          end
      end
  end.

(** [df.iloc[-1]]. *)
Definition iloc_last (df : dataframe) : result Row.t :=
  match nth_error df (length df - 1) with
  | Some r => Ok r
  | None => Raise IndexError
  end.

(** The live traders: the body of the polling loop on the
    indicator-augmented dataframe (paper_trader.py, lines 150-168;
    paper_trader_api.py, lines 343-386).  Fetching, printing, saving and
    sleeping are left out; an exception is what the loop's handlers
    receive. *)
Module PaperTradingBot.
Definition iteration (self : Engine) (df : dataframe)
    : Engine * result unit :=
  match iloc_last df with
  | Raise e => (self, Raise e)
  | Ok current =>
      let current_price := Row.close current in
      let current_atr := Row.atr current in
      let current_time := Row.name current in
      match check_exit self current_price current_atr current_time with
      | (self1, Raise e) => (self1, Raise e)
      | (self1, Ok _) => check_entry self1 df None current_time
      end
  end.

(** Successive iterations, each on the dataframe fetched for it; an
    exception is caught by the loop, which goes on with the engine as it
    is. *)
Definition iterations (self : Engine) (dfs : list dataframe) : Engine :=
  fold_left (fun s df => fst (iteration s df)) dfs self.
End PaperTradingBot.

(** The backtester: the engine and the equity curve. *)
Module CryptoBacktester.
Record t : Type := mk {
  engine : Engine;
  equity_curve : list (timestamp * Q)
}.

(** The body of the backtest loop at index [i] (backtester.py, lines
    64-94). *)
Definition step (bt : t) (df : dataframe) (i : nat) : t * result unit :=
  match iloc df (Z.of_nat i) with
  | Raise e => (bt, Raise e)
  | Ok current =>
      let current_time := Row.name current in
      let current_price := Row.close current in
      let current_atr := Row.atr current in
      let curve :=
        equity_curve bt
        ++ [(current_time, current_equity (engine bt) current_price)] in
      match check_exit (engine bt) current_price current_atr current_time with
      | (self1, Raise e) => (mk self1 curve, Raise e)
      | (self1, Ok _) =>
          match check_entry self1 df (Some (Z.of_nat i)) current_time with
          | (self2, Raise e) => (mk self2 curve, Raise e)
          | (self2, Ok _) => (mk self2 curve, Ok tt)
          end
      end
  end.

(** [for i in range(len(df))]: the loop stops at the first exception. *)
Fixpoint loop (bt : t) (df : dataframe) (indices : list nat)
    : t * result unit :=
  match indices with
  | [] => (bt, Ok tt)
  | i :: rest =>
      match step bt df i with
      | (bt1, Raise e) => (bt1, Raise e)
      | (bt1, Ok _) => loop bt1 df rest
      end
  end.

(** [run] on the indicator-augmented dataframe, up to the call of
    [analyze_results] (backtester.py, lines 63-99). *)
Definition run (bt : t) (df : dataframe) : t * result unit :=
  match loop bt df (seq 0 (length df)) with
  | (bt1, Raise e) => (bt1, Raise e)
  | (bt1, Ok _) =>
      match position (engine bt1) with
      | None => (bt1, Ok tt)
      | Some _ =>
          match iloc_last df with
          | Raise e => (bt1, Raise e)
          | Ok last_row =>
              match
                close_position (engine bt1) (Row.close last_row)
                  (Row.name last_row) END_OF_DATA
              with
              | (self2, Raise e) => (mk self2 (equity_curve bt1), Raise e)
              | (self2, Ok _) => (mk self2 (equity_curve bt1), Ok tt)
              end
          end
      end
  end.
End CryptoBacktester.


(** ** Equity analytics of the drivers *)

(** [Series.cummax()]. *)
Fixpoint cummax_from (m : Q) (xs : list Q) : list Q :=
  match xs with
  | [] => []
  | x :: rest =>
      let m' := if Qltb m x then x else m in
      m' :: cummax_from m' rest
  end.

Definition cummax (xs : list Q) : list Q :=
  match xs with
  | [] => []
  | x :: rest => x :: cummax_from x rest
  end.

(** The ['drawdown'] column, [(equity - peak) / peak * 100] with
    [peak = equity.cummax()] (backtester.py, lines 132-133;
    paper_trader_api.py, lines 271-272).  The division is the element-wise
    one of pandas, which does not raise; a zero peak gives an infinity or
    NaN there and is outside this model. *)
Definition drawdown (equity : list Q) : list Q :=
  map (fun ep => (fst ep - snd ep) / snd ep * 100)
    (combine equity (cummax equity)).

(** [equity_df['drawdown'].min()] (backtester.py, line 134). *)
Definition max_drawdown (equity : list Q) : option Q :=
  series_min (drawdown equity).

(** [Series.cumsum()]. *)
Fixpoint cumsum_from (acc : Q) (xs : list Q) : list Q :=
  match xs with
  | [] => []
  | x :: rest => (acc + x) :: cumsum_from (acc + x) rest
  end.

Definition cumsum (xs : list Q) : list Q :=
  match xs with
  | [] => []
  | x :: rest => x :: cumsum_from x rest
  end.

(** [calculate_cumulative_pnl] (paper_trader_api.py, lines 306-323): the
    exit time of each trade with the running sum of the P&L. *)
Definition calculate_cumulative_pnl (self : Engine) : list (timestamp * Q) :=
  match trades self with
  | [] => []
  | _ =>
      combine (map Trade.exit_time (trades self))
        (cumsum (map Trade.pnl (trades self)))
  end.

(** * Properties *)

(** ** Comparisons and Python values *)

Lemma Qltb_lt (x y : Q) : Qltb x y = true <-> x < y.
Proof.
  unfold Qltb. rewrite negb_true_iff. split; intro H.
  - apply Qnot_le_lt. intro L. apply Qle_bool_iff in L. congruence.
  - destruct (Qle_bool y x) eqn:E; [| reflexivity].
    apply Qle_bool_iff in E. exfalso. apply (Qlt_not_le _ _ H E).
Qed.

Lemma Qltb_ge (x y : Q) : Qltb x y = false <-> y <= x.
Proof.
  unfold Qltb. rewrite negb_false_iff. apply Qle_bool_iff.
Qed.

Lemma Qleb_le (x y : Q) : Qleb x y = true <-> x <= y.
Proof. apply Qle_bool_iff. Qed.

Lemma Qleb_gt (x y : Q) : Qleb x y = false <-> y < x.
Proof.
  unfold Qleb. split; intro H.
  - apply Qnot_le_lt. intro L. apply Qle_bool_iff in L. congruence.
  - destruct (Qle_bool x y) eqn:E; [| reflexivity].
    apply Qle_bool_iff in E. exfalso. apply (Qlt_not_le _ _ H E).
Qed.

Lemma Qeqb_eq (x y : Q) : Qeqb x y = true <-> x == y.
Proof. apply Qeq_bool_iff. Qed.

Lemma Qeqb_neq (x y : Q) : Qeqb x y = false <-> ~ x == y.
Proof.
  unfold Qeqb. split; intro H.
  - intro E. apply Qeq_bool_iff in E. congruence.
  - destruct (Qeq_bool x y) eqn:E; [| reflexivity].
    apply Qeq_bool_iff in E. contradiction.
Qed.

Lemma Qltb_irrefl (x : Q) : Qltb x x = false.
Proof. apply Qltb_ge. apply Qle_refl. Qed.

Lemma pydiv_ok (x y : Q) : ~ y == 0 -> pydiv x y = Ok (x / y).
Proof.
  intro H. unfold pydiv. apply Qeqb_neq in H. rewrite H. reflexivity.
Qed.

Lemma pydiv_zero (x y : Q) : y == 0 -> pydiv x y = Raise ZeroDivisionError.
Proof.
  intro H. unfold pydiv. apply Qeqb_eq in H. rewrite H. reflexivity.
Qed.

Lemma py_min_Qmin (x y : Q) : py_min x y == Qmin x y.
Proof.
  unfold py_min. destruct (Qltb y x) eqn:E.
  - apply Qltb_lt in E. symmetry. apply Q.min_r. apply Qlt_le_weak, E.
  - apply Qltb_ge in E. symmetry. apply Q.min_l. exact E.
Qed.

Lemma Qabs_sub_zero (x y : Q) : Qabs (x - y) == 0 <-> x == y.
Proof.
  split.
  - apply Qabs_case; intros; lra.
  - intro H. apply Qabs_case; intros; lra.
Qed.

(** ** RiskSizer *)

Lemma calculate_position_size_zero (self : Engine) (entry stop conf : Q) :
  entry == stop -> calculate_position_size self entry stop conf = Ok 0.
Proof.
  intro H. unfold calculate_position_size.
  apply Qabs_sub_zero, Qeqb_eq in H. rewrite H. reflexivity.
Qed.

Lemma calculate_position_size_value (self : Engine) (entry stop conf : Q) :
  ~ entry == stop ->
  calculate_position_size self entry stop conf =
  Ok (py_min
        (capital self * risk_per_trade self * conf / Qabs (entry - stop)
         * leverage self)
        (capital self * leverage self * (1 # 2))).
Proof.
  intro H. unfold calculate_position_size.
  assert (N : ~ Qabs (entry - stop) == 0)
    by (intro E; apply H, Qabs_sub_zero, E).
  rewrite (pydiv_ok _ _ N). apply Qeqb_neq in N. rewrite N. reflexivity.
Qed.

(** Whatever the arguments, the guard keeps the division from raising. *)
Lemma calculate_position_size_total (self : Engine) (entry stop conf : Q) :
  exists v, calculate_position_size self entry stop conf = Ok v.
Proof.
  destruct (Qeq_dec entry stop) as [E | N].
  - exists 0. apply calculate_position_size_zero, E.
  - eexists. apply calculate_position_size_value, N.
Qed.

Lemma open_position_refuses_nonpositive_size (self : Engine)
    (signal : Signal.t) (ts : timestamp) (v : Q) :
  calculate_position_size self (Signal.price signal)
    (fst (calculate_stops self (Signal.price signal) (Signal.type signal)
            (Signal.atr signal)))
    (match Signal.confidence signal with Some c => c | None => 1 end)
  = Ok v ->
  v <= 0 ->
  open_position self signal ts = (self, Ok false).
Proof.
  intros Hv Hle. unfold open_position.
  destruct (calculate_stops self (Signal.price signal) (Signal.type signal)
              (Signal.atr signal)) as [sl tp].
  simpl in Hv. rewrite Hv. apply Qleb_le in Hle. rewrite Hle. reflexivity.
Qed.

(** C8.  [calculate_position_size] returns 0, without raising, whenever the
    entry price equals the stop-loss price, and [open_position] then returns
    false and leaves the engine as it was (no position, no counter change).
    For any other stop it returns the smaller of
    (capital x riskPerTrade x confidence / |entry - stopLoss|) x leverage
    and 0.5 x capital x leverage.  With capital 10000, leverage 3, risk per
    trade 0.02, confidence 1, entry 100 and stop 96 the size is 150. *)
Theorem position_size_guard_and_cap :
  (forall self entry stop conf,
      entry == stop -> calculate_position_size self entry stop conf = Ok 0)
  /\ (forall self signal ts,
        Signal.price signal ==
        fst (calculate_stops self (Signal.price signal) (Signal.type signal)
               (Signal.atr signal)) ->
        open_position self signal ts = (self, Ok false))
  /\ (forall self entry stop conf,
        ~ entry == stop ->
        exists v,
          calculate_position_size self entry stop conf = Ok v
          /\ v == Qmin
                  (capital self * risk_per_trade self * conf
                   / Qabs (entry - stop) * leverage self)
                  ((1 # 2) * capital self * leverage self))
  /\ (exists v,
        calculate_position_size (init 10000 3 (2 # 100)) 100 96 1 = Ok v
        /\ v == 150).
Proof.
  split; [| split; [| split]].
  - intros. now apply calculate_position_size_zero.
  - intros self signal ts H.
    apply (open_position_refuses_nonpositive_size self signal ts 0).
    + now apply calculate_position_size_zero.
    + apply Qle_refl.
  - intros self entry stop conf H. eexists. split.
    + now apply calculate_position_size_value.
    + rewrite py_min_Qmin.
      apply Q.min_compat; [reflexivity | ring].
  - eexists. split; [vm_compute; reflexivity | vm_compute; reflexivity].
Qed.

Lemma position_size_guard_and_cap_witness :
  calculate_position_size (init 10000 3 (2 # 100)) 100 100 1 = Ok 0
  /\ open_position (init 10000 3 (2 # 100))
       (Signal.mk Long 100 0 (Some breakout) (Some (8 # 10)))
       (Stamp (DateTime 1 0))
     = (init 10000 3 (2 # 100), Ok false)
  /\ exists v,
       calculate_position_size (init 10000 3 (2 # 100)) 100 96 1 = Ok v
       /\ v == Qmin (10000 * (2 # 100) * 1 / Qabs (100 - 96) * 3)
                 ((1 # 2) * 10000 * 3).
Proof.
  destruct position_size_guard_and_cap as [H1 [H2 [H3 _]]].
  split; [| split].
  - apply H1. reflexivity.
  - apply H2. vm_compute. reflexivity.
  - apply (H3 (init 10000 3 (2 # 100)) 100 96 1). vm_compute. discriminate.
Defined.

(** ** PositionManager: exit evaluation *)

Ltac exit_cbn :=
  cbn [fst snd position set_position trailing_activation stop_atr_multiplier
       Position.type Position.entry_price Position.stop_loss
       Position.take_profit Position.liquidation_price
       Position.trailing_stop Position.set_trailing_stop Position.size
       Position.entry_time Position.entry_capital Position.confidence
       Position.pattern update_trailing].

(** Replays the tests already decided in the hypotheses. *)
Ltac replay :=
  repeat (exit_cbn;
          match goal with
          | H : ?c = _ |- context [?c] => rewrite H
          | |- context [Qltb ?x ?x] => rewrite (Qltb_irrefl x)
          end);
  exit_cbn.

(** Case split on the first test in the goal. *)
Ltac split_if :=
  match goal with
  | |- context [if ?c then _ else _] => destruct c eqn:?
  end.

(** C7.  [should_exit_position] is idempotent: a second call with the same
    price and the same ATR leaves the engine, and so the position, as the
    first call left it, and has the same outcome as the first call. *)
Theorem should_exit_position_idempotent :
  forall self current_price current_atr,
    let first := should_exit_position self current_price current_atr in
    let second := should_exit_position (fst first) current_price current_atr in
    fst second = fst first /\ snd second = snd first.
Proof.
  intros self price atr.
  destruct self as [ic cap lev rpt sam tam ta mtd dll [pos |] trs dp dtc ltd];
    [| split; reflexivity].
  destruct pos as [ty ep sz sl tp liq et ec cf pt tr].
  unfold should_exit_position. exit_cbn.
  destruct ty; exit_cbn.
  - destruct (pydiv (price - ep) ep) as [q | e] eqn:D;
      [| replay; split; reflexivity].
    destruct (Qleb price liq) eqn:L; [replay; split; reflexivity |].
    destruct (truthy atr && Qltb ta (q * 100)) eqn:A;
      [| replay; split; reflexivity].
    destruct tr as [stored |]; exit_cbn.
    + destruct (Qltb stored _) eqn:T; exit_cbn; split_if;
        replay; split; reflexivity.
    + split_if; replay; split; reflexivity.
  - destruct (pydiv (ep - price) ep) as [q | e] eqn:D;
      [| replay; split; reflexivity].
    destruct (Qleb liq price) eqn:L; [replay; split; reflexivity |].
    destruct (truthy atr && Qltb ta (q * 100)) eqn:A;
      [| replay; split; reflexivity].
    destruct tr as [stored |]; exit_cbn.
    + destruct (Qltb _ stored) eqn:T; exit_cbn; split_if;
        replay; split; reflexivity.
    + split_if; replay; split; reflexivity.
Qed.

Lemma never_loosens_refl (t : side) (x : Q) : never_loosens t x x.
Proof. destruct t; apply Qle_refl. Qed.

Lemma never_loosens_trans (t : side) (x y z : Q) :
  never_loosens t x y -> never_loosens t y z -> never_loosens t x z.
Proof.
  destruct t; simpl; intros H1 H2.
  - apply (Qle_trans _ _ _ H1 H2).
  - apply (Qle_trans _ _ _ H2 H1).
Qed.

Lemma update_trailing_never_loosens (pos : Position.t) (stored cand : Q) :
  Position.trailing_stop pos = Some stored ->
  exists stored',
    Position.trailing_stop (update_trailing pos cand) = Some stored'
    /\ Position.type (update_trailing pos cand) = Position.type pos
    /\ never_loosens (Position.type pos) stored stored'.
Proof.
  intro H. unfold update_trailing. rewrite H.
  destruct (Position.type pos) eqn:Ty.
  - destruct (Qltb stored cand) eqn:T.
    + exists cand. repeat split; [exact Ty |].
      apply Qltb_lt in T. apply Qlt_le_weak, T.
    + exists stored. repeat split; [exact H | exact Ty | apply Qle_refl].
  - destruct (Qltb cand stored) eqn:T.
    + exists cand. repeat split; [exact Ty |].
      apply Qltb_lt in T. apply Qlt_le_weak, T.
    + exists stored. repeat split; [exact H | exact Ty | apply Qle_refl].
Qed.

(** The engine after one exit evaluation: untouched, or the same engine
    with the trailing stop of its position updated for some candidate. *)
Lemma should_exit_position_state (self : Engine) (pos : Position.t)
    (price : Q) (atr : option Q) :
  position self = Some pos ->
  fst (should_exit_position self price atr) = self
  \/ exists cand,
       fst (should_exit_position self price atr)
       = set_position self (Some (update_trailing pos cand)).
Proof.
  intro H. unfold should_exit_position. rewrite H.
  destruct (Position.type pos);
    match goal with |- context [pydiv ?a ?b] => destruct (pydiv a b) end;
    repeat first
      [ split_if
      | match goal with
        | |- context [match ?o with Some _ => _ | None => _ end] =>
            destruct o
        end ];
    cbn [fst]; try (left; reflexivity); right; eexists; reflexivity.
Qed.

Lemma trailing_stop_step (self : Engine) (pos : Position.t) (stored : Q)
    (price : Q) (atr : option Q) :
  position self = Some pos ->
  Position.trailing_stop pos = Some stored ->
  exists pos' stored',
    position (fst (should_exit_position self price atr)) = Some pos'
    /\ Position.trailing_stop pos' = Some stored'
    /\ Position.type pos' = Position.type pos
    /\ never_loosens (Position.type pos) stored stored'.
Proof.
  intros H Ht.
  destruct (should_exit_position_state self pos price atr H) as [E | [c E]];
    rewrite E.
  - exists pos, stored. repeat split; try assumption.
    apply never_loosens_refl.
  - destruct (update_trailing_never_loosens pos stored c Ht)
      as [s' [H1 [H2 H3]]].
    exists (update_trailing pos c), s'. repeat split; assumption.
Qed.

Lemma trailing_stop_run (inputs : list (Q * option Q)) :
  forall self pos stored,
    position self = Some pos ->
    Position.trailing_stop pos = Some stored ->
    exists pos' stored',
      position (exit_evaluations self inputs) = Some pos'
      /\ Position.trailing_stop pos' = Some stored'
      /\ Position.type pos' = Position.type pos
      /\ never_loosens (Position.type pos) stored stored'.
Proof.
  induction inputs as [| [price atr] rest IH]; intros self pos stored H Ht.
  - exists pos, stored. repeat split; try assumption.
    apply never_loosens_refl.
  - destruct (trailing_stop_step self pos stored price atr H Ht)
      as [p1 [s1 [A1 [A2 [A3 A4]]]]].
    destruct (IH _ p1 s1 A1 A2) as [p2 [s2 [B1 [B2 [B3 B4]]]]].
    exists p2, s2. simpl. repeat split; try assumption.
    + congruence.
    + rewrite A3 in B4. apply (never_loosens_trans _ _ _ _ A4 B4).
Qed.

Lemma loosening_candidate_discarded (pos : Position.t) (stored cand : Q) :
  Position.trailing_stop pos = Some stored ->
  never_loosens (Position.type pos) cand stored ->
  update_trailing pos cand = pos.
Proof.
  intros H L. unfold update_trailing. rewrite H.
  destruct (Position.type pos); simpl in L; apply Qltb_ge in L; rewrite L;
    reflexivity.
Qed.

Lemma set_position_same (self : Engine) (pos : Position.t) :
  position self = Some pos -> set_position self (Some pos) = self.
Proof. destruct self; simpl; intro H; rewrite H; reflexivity. Qed.

(** C6.  Once the trailing stop of an open position is armed, no sequence
    of [should_exit_position] calls moves it against the favourable
    direction: the position stays open with its direction, the stop stays
    armed, and the stored value is at least the old one for a long position
    and at most the old one for a short position.  A candidate that would
    loosen or keep the stop is discarded: the position is left unchanged. *)
Theorem trailing_stop_never_loosens :
  forall self pos stored,
    position self = Some pos ->
    Position.trailing_stop pos = Some stored ->
    (forall inputs,
        exists pos' stored',
          position (exit_evaluations self inputs) = Some pos'
          /\ Position.trailing_stop pos' = Some stored'
          /\ Position.type pos' = Position.type pos
          /\ never_loosens (Position.type pos) stored stored')
    /\ (forall cand,
          never_loosens (Position.type pos) cand stored ->
          update_trailing pos cand = pos)
    /\ (forall current_price current_atr,
          let cand :=
            match Position.type pos with
            | Long =>
                current_price
                - current_atr * stop_atr_multiplier self * (3 # 4)
            | Short =>
                current_price
                + current_atr * stop_atr_multiplier self * (3 # 4)
            end in
          never_loosens (Position.type pos) cand stored ->
          fst (should_exit_position self current_price (Some current_atr))
          = self).
Proof.
  intros self pos stored H Ht. split; [| split].
  - intro inputs. now apply trailing_stop_run.
  - intros cand L. now apply (loosening_candidate_discarded pos stored).
  - intros price atr cand L. subst cand.
    unfold should_exit_position. rewrite H.
    destruct (Position.type pos) eqn:Ty;
      match goal with |- context [pydiv ?a ?b] => destruct (pydiv a b) end;
      try reflexivity;
      repeat split_if; cbn [fst]; try reflexivity;
      rewrite (loosening_candidate_discarded pos stored _ Ht)
        by (rewrite Ty; exact L);
      rewrite Ht; split_if; cbn [fst]; now apply set_position_same.
Qed.

(** ** PositionManager: open and close *)

Lemma close_position_flat (self : Engine) (exit_price : Q) (ts : timestamp)
    (r : reason) :
  position self = None -> close_position self exit_price ts r = (self, Ok None).
Proof. intro H. unfold close_position. rewrite H. reflexivity. Qed.

Lemma close_position_record (self : Engine) (pos : Position.t)
    (exit_price : Q) (ts : timestamp) (r : reason) :
  position self = Some pos ->
  ~ Position.entry_capital pos == 0 ->
  exists self' rec,
    close_position self exit_price ts r = (self', Ok (Some rec))
    /\ Trade.pnl rec = realized_pnl pos exit_price r.
Proof.
  intros H N. unfold close_position. rewrite H.
  rewrite (pydiv_ok _ _ N). eexists. eexists. split; [reflexivity |].
  unfold realized_pnl. cbn [Trade.pnl].
  destruct (reason_eqb r LIQUIDATION), (Position.type pos); reflexivity.
Qed.

Lemma close_position_capital (self : Engine) (pos : Position.t)
    (exit_price : Q) (ts : timestamp) (r : reason) :
  position self = Some pos ->
  capital (fst (close_position self exit_price ts r))
  = capital self + realized_pnl pos exit_price r.
Proof.
  intro H. unfold close_position, realized_pnl. rewrite H.
  destruct (pydiv _ (Position.entry_capital pos));
    destruct (reason_eqb r LIQUIDATION), (Position.type pos); reflexivity.
Qed.

(** A position opened by [open_position] records a non-zero capital: with
    no capital the size is capped at zero and the open is refused.  So
    [close_position] returns a record for every position that
    [open_position] has created. *)
Lemma open_position_entry_capital_nonzero (self self' : Engine)
    (signal : Signal.t) (ts : timestamp) :
  open_position self signal ts = (self', Ok true) ->
  exists pos,
    position self' = Some pos
    /\ Position.entry_capital pos = capital self
    /\ ~ Position.entry_capital pos == 0.
Proof.
  unfold open_position.
  destruct (calculate_stops _ _ _ _) as [sl tp].
  destruct (calculate_position_size _ _ _ _) as [sz | e] eqn:S;
    [| discriminate].
  destruct (Qleb sz 0) eqn:Z0; [discriminate |].
  destruct (calculate_liquidation_price _ _ _) as [liq | e];
    [| discriminate].
  intro E. injection E as E. subst self'.
  eexists. split; [reflexivity |]. split; [reflexivity |].
  cbn [Position.entry_capital]. intro C0.
  apply Qleb_gt in Z0.
  unfold calculate_position_size in S.
  destruct (Qeqb _ 0) in S.
  - injection S as S. subst sz. apply (Qlt_irrefl _ Z0).
  - destruct (pydiv _ _) as [q | e] in S; [| discriminate].
    cbn [bind] in S. injection S as S. subst sz.
    rewrite py_min_Qmin in Z0.
    pose proof (Q.le_min_r (q * leverage self)
                  (capital self * leverage self * (1 # 2))) as L.
    assert (E0 : capital self * leverage self * (1 # 2) == 0)
      by (rewrite C0; ring).
    apply (Qlt_irrefl 0).
    apply (Qlt_le_trans _ _ _ Z0).
    apply Qle_trans with (capital self * leverage self * (1 # 2));
      [exact L | rewrite E0; apply Qle_refl].
Qed.

(** C5.  When [close_position] returns a trade record for an open position,
    the capital after the call is the capital before plus the realized P&L
    of the record, the position slot is empty, the record is the new last
    entry of the trade log, and the daily P&L has grown by the same realized
    P&L.  A record is returned whenever the capital recorded at entry is not
    zero. *)
Theorem close_position_accounting :
  forall self pos exit_price ts r,
    position self = Some pos ->
    (forall self' rec,
        close_position self exit_price ts r = (self', Ok (Some rec)) ->
        capital self' = capital self + Trade.pnl rec
        /\ position self' = None
        /\ trades self' = trades self ++ [rec]
        /\ daily_pnl self' = daily_pnl self + Trade.pnl rec)
    /\ (~ Position.entry_capital pos == 0 ->
        exists self' rec,
          close_position self exit_price ts r = (self', Ok (Some rec))).
Proof.
  intros self pos exit_price ts r H. split.
  - intros self' rec. unfold close_position. rewrite H.
    destruct (pydiv _ (Position.entry_capital pos)) as [q | e];
      [| discriminate].
    intro E. injection E as E1 E2. subst self' rec.
    repeat split; reflexivity.
  - intro N.
    destruct (close_position_record self pos exit_price ts r H N)
      as [self' [rec [E _]]].
    exists self', rec. exact E.
Qed.

(** C4.  Closing an open position with reason LIQUIDATION adds exactly
    -0.9 times the capital recorded at entry to the capital, whatever the
    exit price and the timestamp; the trade record, returned whenever that
    capital is not zero, carries this amount as its realized P&L, so two
    liquidation closes at different exit prices realize the same P&L. *)
Theorem liquidation_close_pnl :
  forall self pos exit_price ts,
    position self = Some pos ->
    let out := close_position self exit_price ts LIQUIDATION in
    capital (fst out) == capital self + - (9 # 10) * Position.entry_capital pos
    /\ (forall rec,
          snd out = Ok (Some rec) ->
          Trade.pnl rec == - (9 # 10) * Position.entry_capital pos)
    /\ (~ Position.entry_capital pos == 0 ->
        exists rec, snd out = Ok (Some rec))
    /\ (forall exit_price' ts' rec rec',
          snd out = Ok (Some rec) ->
          snd (close_position self exit_price' ts' LIQUIDATION)
          = Ok (Some rec') ->
          Trade.pnl rec = Trade.pnl rec').
Proof.
  intros self pos exit_price ts H out. subst out.
  assert (R : forall x t rec,
             snd (close_position self x t LIQUIDATION) = Ok (Some rec) ->
             Trade.pnl rec = - Position.entry_capital pos * (9 # 10)).
  { intros x t rec. unfold close_position. rewrite H.
    cbn [reason_eqb].
    destruct (pydiv _ (Position.entry_capital pos)); cbn [snd];
      [| discriminate].
    intro E. injection E as E. subst rec. reflexivity. }
  split; [| split; [| split]].
  - rewrite (close_position_capital self pos exit_price ts LIQUIDATION H).
    unfold realized_pnl. cbn [reason_eqb]. ring.
  - intros rec E. rewrite (R _ _ _ E). ring.
  - intro N.
    destruct (close_position_record self pos exit_price ts LIQUIDATION H N)
      as [self' [rec [E _]]].
    exists rec. rewrite E. reflexivity.
  - intros x' t' rec rec' E E'.
    rewrite (R _ _ _ E), (R _ _ _ E'). reflexivity.
Qed.

(** ** SignalDetector *)

Lemma fold_max_spec (rest : list Q) :
  forall x,
    let m := fold_left (fun m y => if Qltb m y then y else m) rest x in
    In m (x :: rest) /\ forall y, In y (x :: rest) -> y <= m.
Proof.
  induction rest as [| z rest IH]; intro x; cbn [fold_left].
  - split; [left; reflexivity |].
    intros y [E | []]. subst y. apply Qle_refl.
  - destruct (Qltb x z) eqn:T.
    + destruct (IH z) as [I B]. split.
      * right. exact I.
      * intros y [E | Hy]; [| apply B, Hy].
        subst y. apply Qltb_lt in T.
        apply Qle_trans with z; [apply Qlt_le_weak, T |].
        apply B. left. reflexivity.
    + destruct (IH x) as [I B]. split.
      * destruct I as [E | I]; [left; exact E | right; right; exact I].
      * intros y [E | [E | Hy]].
        -- subst y. apply B. left. reflexivity.
        -- subst y. apply Qltb_ge in T.
           apply Qle_trans with x; [exact T |]. apply B. left. reflexivity.
        -- apply B. right. exact Hy.
Qed.

Lemma fold_min_spec (rest : list Q) :
  forall x,
    let m := fold_left (fun m y => if Qltb y m then y else m) rest x in
    In m (x :: rest) /\ forall y, In y (x :: rest) -> m <= y.
Proof.
  induction rest as [| z rest IH]; intro x; cbn [fold_left].
  - split; [left; reflexivity |].
    intros y [E | []]. subst y. apply Qle_refl.
  - destruct (Qltb z x) eqn:T.
    + destruct (IH z) as [I B]. split.
      * right. exact I.
      * intros y [E | Hy]; [| apply B, Hy].
        subst y. apply Qltb_lt in T.
        apply Qle_trans with z; [| apply Qlt_le_weak, T].
        apply B. left. reflexivity.
    + destruct (IH x) as [I B]. split.
      * destruct I as [E | I]; [left; exact E | right; right; exact I].
      * intros y [E | [E | Hy]].
        -- subst y. apply B. left. reflexivity.
        -- subst y. apply Qltb_ge in T.
           apply Qle_trans with x; [| exact T]. apply B. left. reflexivity.
        -- apply B. right. exact Hy.
Qed.

Lemma series_max_spec (xs : list Q) (m : Q) :
  series_max xs = Some m -> In m xs /\ forall y, In y xs -> y <= m.
Proof.
  destruct xs as [| x rest]; [discriminate |].
  cbn [series_max]. intro E. injection E as E. subst m. apply fold_max_spec.
Qed.

Lemma series_min_spec (xs : list Q) (m : Q) :
  series_min xs = Some m -> In m xs /\ forall y, In y xs -> m <= y.
Proof.
  destruct xs as [| x rest]; [discriminate |].
  cbn [series_min]. intro E. injection E as E. subst m. apply fold_min_spec.
Qed.

Lemma series_max_some (xs : list Q) :
  xs <> [] -> exists m, series_max xs = Some m.
Proof. destruct xs; [congruence | eexists; reflexivity]. Qed.

Lemma series_min_some (xs : list Q) :
  xs <> [] -> exists m, series_min xs = Some m.
Proof. destruct xs; [congruence | eexists; reflexivity]. Qed.

(** The rows that [check_signal] reads at index [i]. *)
Lemma window_rows (pre post : list Row.t) (r5 r4 r3 r2 r1 cur : Row.t) :
  let df := pre ++ r5 :: r4 :: r3 :: r2 :: r1 :: cur :: post in
  let i := (Z.of_nat (length pre) + 5)%Z in
  iloc df i = Ok cur
  /\ iloc df (i - 1) = Ok r1
  /\ iloc df (i - 2) = Ok r2
  /\ iloc_slice df (i - 5) i = [r5; r4; r3; r2; r1]
  /\ iloc_slice df (i - 5) (i - 1) = [r5; r4; r3; r2].
Proof.
  intros df i. subst df i. unfold iloc, iloc_slice.
  replace (Z.to_nat (Z.of_nat (length pre) + 5)) with (length pre + 5)%nat
    by lia.
  replace (Z.to_nat (Z.of_nat (length pre) + 5 - 1)) with (length pre + 4)%nat
    by lia.
  replace (Z.to_nat (Z.of_nat (length pre) + 5 - 2)) with (length pre + 3)%nat
    by lia.
  replace (Z.to_nat (Z.of_nat (length pre) + 5 - 5)) with (length pre + 0)%nat
    by lia.
  replace (Z.to_nat (Z.of_nat (length pre) + 5
                     - (Z.of_nat (length pre) + 5 - 5))) with 5%nat by lia.
  replace (Z.to_nat (Z.of_nat (length pre) + 5 - 1
                     - (Z.of_nat (length pre) + 5 - 5))) with 4%nat by lia.
  rewrite !nth_error_app2 by lia.
  replace (length pre + 5 - length pre)%nat with 5%nat by lia.
  replace (length pre + 4 - length pre)%nat with 4%nat by lia.
  replace (length pre + 3 - length pre)%nat with 3%nat by lia.
  rewrite skipn_app, Nat.add_0_r, skipn_all, Nat.sub_diag.
  repeat split; reflexivity.
Qed.

Lemma consolidating_iff (df : dataframe) (i : Z) (cur : Row.t)
    (rows : list Row.t) :
  iloc_slice df (i - 5) i = rows ->
  rows <> [] ->
  consolidating df i cur = true <->
  forall a b, In a rows -> In b rows ->
              Row.high a - Row.low b < Row.atr cur * 3.
Proof.
  intros E NE. unfold consolidating. rewrite E.
  destruct (series_max_some (map Row.high rows)) as [hi Hhi];
    [destruct rows; [congruence | discriminate] |].
  destruct (series_min_some (map Row.low rows)) as [lo Hlo];
    [destruct rows; [congruence | discriminate] |].
  rewrite Hhi, Hlo, Qltb_lt.
  destruct (series_max_spec _ _ Hhi) as [Ih Bh].
  destruct (series_min_spec _ _ Hlo) as [Il Bl].
  split.
  - intros H a b Ha Hb.
    assert (Row.high a <= hi) by (apply Bh, in_map, Ha).
    assert (lo <= Row.low b) by (apply Bl, in_map, Hb).
    lra.
  - intro H. apply in_map_iff in Ih. destruct Ih as [a [Ea Ha]].
    apply in_map_iff in Il. destruct Il as [b [Eb Hb]].
    subst hi lo. apply H; assumption.
Qed.

Lemma breaking_higher_iff (df : dataframe) (i : Z) (cur : Row.t)
    (rows : list Row.t) :
  iloc_slice df (i - 5) (i - 1) = rows ->
  rows <> [] ->
  breaking_higher df i cur = true <->
  forall a, In a rows -> Row.high a < Row.close cur.
Proof.
  intros E NE. unfold breaking_higher. rewrite E.
  destruct (series_max_some (map Row.high rows)) as [hi Hhi];
    [destruct rows; [congruence | discriminate] |].
  rewrite Hhi, Qltb_lt.
  destruct (series_max_spec _ _ Hhi) as [Ih Bh].
  split.
  - intros H a Ha.
    assert (Row.high a <= hi) by (apply Bh, in_map, Ha). lra.
  - intro H. apply in_map_iff in Ih. destruct Ih as [a [Ea Ha]].
    subst hi. apply H, Ha.
Qed.

(** C9, as the code has it.  At an index i >= 5 with the daily limits not
    reached and neither the trend-pullback nor the band pattern matching,
    [check_signal] returns the long breakout signal (confidence 0.8, the
    close and the ATR of the current row) exactly when: over the five rows
    i-5 .. i-1 every high minus every low, hence the highest high minus the
    lowest low, is less than 3 times the current ATR; the current close
    exceeds the high of each of the four rows i-5 .. i-2, which leave out
    the current row and the row just before it; the volume ratio exceeds
    1.5; and the MACD line is above its signal line. *)
Theorem breakout_long_exactly_when :
  forall self pre r5 r4 r3 r2 r1 cur post,
    let df := pre ++ r5 :: r4 :: r3 :: r2 :: r1 :: cur :: post in
    let i := (Z.of_nat (length pre) + 5)%Z in
    limit_reached (reset_daily_limits self cur) = false ->
    trend_pullback_long cur r1 r2 = false ->
    trend_pullback_short cur r1 r2 = false ->
    bb_bounce_long cur = false ->
    bb_rejection_short cur = false ->
    (snd (check_signal self df (Some i))
     = Ok (Some (Signal.mk Long (Row.close cur) (Row.atr cur)
                   (Some breakout) (Some (8 # 10))))
     <->
     (forall a b, In a [r5; r4; r3; r2; r1] -> In b [r5; r4; r3; r2; r1] ->
                  Row.high a - Row.low b < Row.atr cur * 3)
     /\ (forall a, In a [r5; r4; r3; r2] -> Row.high a < Row.close cur)
     /\ 3 # 2 < Row.volume_ratio cur
     /\ Row.macd_signal cur < Row.macd cur).
Proof.
  intros self pre r5 r4 r3 r2 r1 cur post df i G P1 P2 P3 P4.
  destruct (window_rows pre post r5 r4 r3 r2 r1 cur)
    as [Ec [E1 [E2 [S5 S4]]]].
  fold df i in Ec, E1, E2, S5, S4.
  assert (R : snd (check_signal self df (Some i))
              = Ok (detect_pattern df i cur r1 r2)).
  { unfold check_signal.
    replace (i <? 5)%Z with false by (symmetry; apply Z.ltb_ge; lia).
    rewrite Ec, E1, E2. cbn [bind]. rewrite G. reflexivity. }
  rewrite R. unfold detect_pattern. rewrite P1, P2, P3, P4.
  rewrite <- (consolidating_iff df i cur _ S5) by discriminate.
  rewrite <- (breaking_higher_iff df i cur _ S4) by discriminate.
  rewrite <- !Qltb_lt.
  unfold breakout_long, volume_surge, make_signal.
  destruct (consolidating df i cur), (breaking_higher df i cur),
    (Qltb (3 # 2) (Row.volume_ratio cur)),
    (Qltb (Row.macd_signal cur) (Row.macd cur)); cbn [andb];
    try (split; [intros _; repeat split; reflexivity | reflexivity]);
    (split; [| intros [? [? [? ?]]]; discriminate]);
    repeat split_if; discriminate.
Qed.

(** ** PerformanceAnalyzer *)

Lemma inject_Z_length_nonzero {A : Type} (x : A) (xs : list A) :
  ~ inject_Z (Z.of_nat (length (x :: xs))) == 0.
Proof.
  unfold Qeq. cbn [Qnum Qden inject_Z length]. lia.
Qed.

Lemma filter_complement_length {A : Type} (f : A -> bool) (xs : list A) :
  (length (filter f xs) + length (filter (fun x => negb (f x)) xs)
   = length xs)%nat.
Proof.
  induction xs as [| x xs IH]; [reflexivity |].
  cbn [filter]. destruct (f x); cbn [negb length]; lia.
Qed.

Lemma filter_map_length {A B : Type} (f : B -> bool) (g : A -> B)
    (xs : list A) :
  length (filter f (map g xs)) = length (filter (fun x => f (g x)) xs).
Proof.
  induction xs as [| x xs IH]; [reflexivity |].
  cbn [map filter]. destruct (f (g x)); cbn [length]; now rewrite IH.
Qed.

Lemma losing_count (ts : list Trade.t) :
  (Z.of_nat (length ts) - Z.of_nat (length (winning_pnl ts)))%Z
  = Z.of_nat (length (filter (fun t => Qleb (Trade.pnl t) 0) ts)).
Proof.
  unfold winning_pnl. rewrite filter_map_length.
  pose proof (filter_complement_length (fun t => Qltb 0 (Trade.pnl t)) ts) as H.
  assert (E : filter (fun t => negb (Qltb 0 (Trade.pnl t))) ts
              = filter (fun t => Qleb (Trade.pnl t) 0) ts).
  { apply filter_ext. intro t. unfold Qltb, Qleb. apply negb_involutive. }
  cbv beta in H. rewrite E in H. lia.
Qed.

Lemma analyze_performance_nonempty (self : Engine) :
  trades self <> [] ->
  ~ initial_capital self == 0 ->
  exists perf,
    analyze_performance self = Ok (Some perf)
    /\ Performance.total_trades perf = Z.of_nat (length (trades self))
    /\ Performance.winning_trades perf
       = Z.of_nat (length (winning_pnl (trades self)))
    /\ Performance.losing_trades perf
       = (Z.of_nat (length (trades self))
          - Z.of_nat (length (winning_pnl (trades self))))%Z
    /\ Performance.win_rate perf
       = inject_Z (Z.of_nat (length (winning_pnl (trades self))))
         / inject_Z (Z.of_nat (length (trades self))) * 100
    /\ Performance.profit_factor perf
       = if Qltb 0 (Qabs (series_sum (losing_pnl (trades self))))
         then Fin (series_sum (winning_pnl (trades self))
                   / Qabs (series_sum (losing_pnl (trades self))))
         else PosInf.
Proof.
  intros NE NZ. unfold analyze_performance.
  destruct (trades self) as [| t ts] eqn:T; [congruence |].
  rewrite (pydiv_ok _ _ (inject_Z_length_nonzero t ts)). cbn [bind].
  rewrite (pydiv_ok _ _ NZ).
  destruct (Qltb 0 (Qabs (series_sum (losing_pnl (t :: ts))))) eqn:L.
  - apply Qltb_lt in L.
    rewrite pydiv_ok by (intro E; rewrite E in L; apply (Qlt_irrefl _ L)).
    cbn [bind]. eexists. repeat split.
  - cbn [bind]. eexists. repeat split.
Qed.

(** C10.  [analyze_performance] returns none for an empty trade log.  For a
    non-empty log (and a non-zero initial capital, which the return on
    investment divides by) it returns a summary in which the trades with
    P&L <= 0, zero included, are the losing trades, and the profit factor is
    the gross profit divided by the gross loss, or positive infinity when
    the gross loss is zero.  For a log of exactly one winning and one losing
    trade of equal magnitude the win rate is 50 and the profit factor is the
    win amount divided by the loss amount. *)
Theorem analyze_performance_summary :
  (forall self, trades self = [] -> analyze_performance self = Ok None)
  /\ (forall self,
        trades self <> [] ->
        ~ initial_capital self == 0 ->
        exists perf,
          analyze_performance self = Ok (Some perf)
          /\ Performance.winning_trades perf
             = Z.of_nat (length (filter (fun t => Qltb 0 (Trade.pnl t))
                                   (trades self)))
          /\ Performance.losing_trades perf
             = Z.of_nat (length (filter (fun t => Qleb (Trade.pnl t) 0)
                                   (trades self)))
          /\ let gross_profit := series_sum (winning_pnl (trades self)) in
             let gross_loss := Qabs (series_sum (losing_pnl (trades self))) in
             (gross_loss == 0 -> Performance.profit_factor perf = PosInf)
             /\ (~ gross_loss == 0 ->
                 Performance.profit_factor perf
                 = Fin (gross_profit / gross_loss)))
  /\ (forall self tw tl,
        0 < Trade.pnl tw ->
        Trade.pnl tl == - Trade.pnl tw ->
        trades self = [tw; tl] \/ trades self = [tl; tw] ->
        ~ initial_capital self == 0 ->
        exists perf pf,
          analyze_performance self = Ok (Some perf)
          /\ Performance.win_rate perf == 50
          /\ Performance.profit_factor perf = Fin pf
          /\ pf == Trade.pnl tw / Qabs (Trade.pnl tl)).
Proof.
  split; [| split].
  - intros self H. unfold analyze_performance. rewrite H. reflexivity.
  - intros self NE NZ.
    destruct (analyze_performance_nonempty self NE NZ)
      as [perf [E [_ [W [Lo [_ PF]]]]]].
    exists perf. split; [exact E |]. split; [| split].
    + rewrite W. unfold winning_pnl. now rewrite filter_map_length.
    + rewrite Lo. apply losing_count.
    + cbn zeta. split; intro G.
      * rewrite PF.
        replace (Qltb 0 (Qabs (series_sum (losing_pnl (trades self)))))
          with false; [reflexivity |].
        symmetry. apply Qltb_ge. rewrite G. apply Qle_refl.
      * rewrite PF.
        replace (Qltb 0 (Qabs (series_sum (losing_pnl (trades self)))))
          with true; [reflexivity |].
        symmetry. apply Qltb_lt.
        pose proof (Qabs_nonneg (series_sum (losing_pnl (trades self)))).
        apply Qnot_le_lt. intro LE. apply G. apply Qle_antisym; assumption.
  - intros self tw tl Hw Hl Ht NZ.
    assert (NE : trades self <> [])
      by (destruct Ht as [E | E]; rewrite E; discriminate).
    destruct (analyze_performance_nonempty self NE NZ)
      as [perf [E [_ [_ [_ [WR PF]]]]]].
    assert (Ww : Qltb 0 (Trade.pnl tw) = true) by (apply Qltb_lt, Hw).
    assert (Wl : Qltb 0 (Trade.pnl tl) = false)
      by (apply Qltb_ge; rewrite Hl; lra).
    assert (Lw : Qleb (Trade.pnl tw) 0 = false) by (apply Qleb_gt, Hw).
    assert (Ll : Qleb (Trade.pnl tl) 0 = true)
      by (apply Qleb_le; rewrite Hl; lra).
    assert (Pos : 0 < Qabs (Trade.pnl tl)).
    { rewrite Hl, Qabs_opp, Qabs_pos; [exact Hw | apply Qlt_le_weak, Hw]. }
    exists perf.
    exists (series_sum (winning_pnl (trades self))
            / Qabs (series_sum (losing_pnl (trades self)))).
    split; [exact E |].
    assert (S1 : series_sum (winning_pnl (trades self)) == Trade.pnl tw).
    { destruct Ht as [T | T]; rewrite T; unfold winning_pnl, series_sum;
        cbn [map filter]; rewrite Ww, Wl; cbn [fold_left]; ring. }
    assert (S2 : series_sum (losing_pnl (trades self)) == Trade.pnl tl).
    { destruct Ht as [T | T]; rewrite T; unfold losing_pnl, series_sum;
        cbn [map filter]; rewrite Lw, Ll; cbn [fold_left]; ring. }
    split; [| split].
    + rewrite WR.
      destruct Ht as [T | T]; rewrite T; unfold winning_pnl;
        cbn [map filter]; rewrite Ww, Wl; reflexivity.
    + rewrite PF.
      replace (Qltb 0 (Qabs (series_sum (losing_pnl (trades self)))))
        with true by (symmetry; apply Qltb_lt; rewrite S2; exact Pos).
      reflexivity.
    + rewrite S1, S2. reflexivity.
Qed.

(** ** Runs on the sample inputs *)

Lemma trailing_stop_never_loosens_witness :
  position engine_armed = Some pos_armed
  /\ Position.trailing_stop pos_armed = Some 102
  /\ exists pos' stored',
       position (exit_evaluations engine_armed
                   [(106, Some 2); (103, Some 2); (110, None)]) = Some pos'
       /\ Position.trailing_stop pos' = Some stored'
       /\ Position.type pos' = Position.type pos_armed
       /\ never_loosens (Position.type pos_armed) 102 stored'.
Proof.
  split; [reflexivity | split; [reflexivity |]].
  destruct (trailing_stop_never_loosens engine_armed pos_armed 102
              eq_refl eq_refl) as [H _].
  exact (H [(106, Some 2); (103, Some 2); (110, None)]).
Defined.

Lemma close_position_accounting_witness :
  exists pos self' rec,
    position engine_open = Some pos
    /\ close_position engine_open 104 (Stamp (DateTime 1 900)) TAKE_PROFIT
       = (self', Ok (Some rec))
    /\ capital self' = capital engine_open + Trade.pnl rec
    /\ position self' = None
    /\ trades self' = trades engine_open ++ [rec]
    /\ daily_pnl self' = daily_pnl engine_open + Trade.pnl rec.
Proof.
  destruct (position engine_open) as [pos |] eqn:P; [| discriminate P].
  destruct (close_position_accounting engine_open pos 104
              (Stamp (DateTime 1 900)) TAKE_PROFIT P) as [H1 H2].
  destruct H2 as [self' [rec E]].
  - injection P as P. subst pos. vm_compute. discriminate.
  - exists pos, self', rec. split; [reflexivity |]. split; [exact E |].
    exact (H1 self' rec E).
Defined.

Lemma liquidation_close_pnl_witness :
  exists pos,
    position engine_open = Some pos
    /\ capital (fst (close_position engine_open 69 (Stamp (DateTime 1 900))
                       LIQUIDATION))
       == capital engine_open + - (9 # 10) * Position.entry_capital pos
    /\ capital (fst (close_position engine_open 69 (Stamp (DateTime 1 900))
                       LIQUIDATION)) == 1000.
Proof.
  destruct (position engine_open) as [pos |] eqn:P; [| discriminate P].
  destruct (liquidation_close_pnl engine_open pos 69 (Stamp (DateTime 1 900))
              P) as [H _].
  exists pos. split; [reflexivity |]. split; [exact H |].
  vm_compute. reflexivity.
Defined.

(** C2, against the claim.  [open_position] on the engine that holds the
    long opened from [signal_a] returns true, puts a different position in
    the slot, raises the daily trade count from 1 to 2 and overwrites the
    last-trade date. *)
Lemma open_position_while_open_overwrites :
  let out := open_position engine_open signal_b (Stamp (DateTime 1 900)) in
  position engine_open <> None
  /\ snd out = Ok true
  /\ position (fst out) <> position engine_open
  /\ daily_trade_count engine_open = 1%Z
  /\ daily_trade_count (fst out) = 2%Z
  /\ last_trade_date (fst out) <> last_trade_date engine_open.
Proof.
  vm_compute. repeat split; try discriminate.
Qed.

(** C2, as the code has it.  [open_position] does not look at the position
    slot.  Whenever the computed size is positive (and the liquidation price
    is computed, which needs a non-zero leverage), it returns true, stores
    the new position in the slot in place of whatever the slot held, adds
    one to the daily trade count and records the timestamp as last-trade
    date.  [close_position] with no open position returns no record and
    leaves the engine, so capital, daily P&L and trade log, unchanged. *)
Theorem open_replaces_slot_close_flat_noop :
  (forall self signal ts size liq,
      let stops :=
        calculate_stops self (Signal.price signal) (Signal.type signal)
          (Signal.atr signal) in
      let conf :=
        match Signal.confidence signal with Some c => c | None => 1 end in
      let pat :=
        match Signal.pattern signal with Some p => p | None => unknown end in
      calculate_position_size self (Signal.price signal) (fst stops) conf
      = Ok size ->
      0 < size ->
      calculate_liquidation_price self (Signal.price signal)
        (Signal.type signal) = Ok liq ->
      let out := open_position self signal ts in
      snd out = Ok true
      /\ position (fst out)
         = Some (Position.mk (Signal.type signal) (Signal.price signal) size
                   (fst stops) (snd stops) liq ts (capital self) conf pat
                   None)
      /\ daily_trade_count (fst out) = (daily_trade_count self + 1)%Z
      /\ last_trade_date (fst out) = stamp_if_has_date ts
      /\ capital (fst out) = capital self
      /\ trades (fst out) = trades self
      /\ daily_pnl (fst out) = daily_pnl self)
  /\ (forall self exit_price ts r,
        position self = None ->
        close_position self exit_price ts r = (self, Ok None)).
Proof.
  split.
  - intros self signal ts size liq stops conf pat Hs Hpos Hl out.
    subst out. unfold open_position. fold conf pat.
    fold stops. destruct stops as [sl tp] eqn:S. cbn [fst snd] in *.
    rewrite Hs. apply Qleb_gt in Hpos. rewrite Hpos. rewrite Hl.
    repeat split.
  - intros. now apply close_position_flat.
Qed.

Lemma open_replaces_slot_close_flat_noop_witness :
  let out := open_position engine_open signal_b (Stamp (DateTime 1 900)) in
  snd out = Ok true
  /\ (exists pos,
        position (fst out) = Some pos
        /\ Position.type pos = Short /\ Position.entry_price pos = 200)
  /\ daily_trade_count (fst out) = (daily_trade_count engine_open + 1)%Z
  /\ close_position engine0 104 (Stamp (DateTime 1 900)) TAKE_PROFIT
     = (engine0, Ok None).
Proof.
  destruct open_replaces_slot_close_flat_noop as [H1 H2].
  destruct (H1 engine_open signal_b (Stamp (DateTime 1 900)) _ _
              eq_refl eq_refl eq_refl) as [A [B [C _]]].
  cbv zeta. split; [exact A |]. split; [| split; [exact C |]].
  - eexists. split; [exact B |]. split; reflexivity.
  - apply H2. reflexivity.
Defined.

(** C3.  [check_signal] called without an index returns none for every
    dataframe and every engine, and changes nothing: the index defaults to
    -1, which is below 5. *)
Theorem check_signal_without_index :
  forall self df, check_signal self df None = (self, Ok None).
Proof. intros self df. reflexivity. Qed.

Lemma open_position_records_timestamp (self self' : Engine)
    (signal : Signal.t) (day tod : Z) :
  open_position self signal (Stamp (DateTime day tod)) = (self', Ok true) ->
  last_trade_date self' = Some (DateTime day tod).
Proof.
  unfold open_position.
  destruct (calculate_stops _ _ _ _) as [sl tp].
  destruct (calculate_position_size _ _ _ _) as [sz | e]; [| discriminate].
  destruct (Qleb sz 0); [discriminate |].
  destruct (calculate_liquidation_price _ _ _) as [liq | e];
    [| discriminate].
  intro E. injection E as E. subst self'. reflexivity.
Qed.

Lemma close_position_keeps_trade_date (self : Engine) (exit_price : Q)
    (ts : timestamp) (r : reason) :
  last_trade_date (fst (close_position self exit_price ts r))
  = last_trade_date self.
Proof.
  unfold close_position. destruct (position self) as [pos |];
    [| reflexivity].
  destruct (pydiv _ _); reflexivity.
Qed.

(** With a plain date stored, as [load_state] of the live traders stores
    it, a row of that date triggers no reset. *)
Lemma reset_daily_limits_same_date (self : Engine) (current : Row.t) :
  last_trade_date self = Some (DateOnly (Row.name_day current)) ->
  reset_daily_limits self current = self.
Proof.
  intro H. unfold reset_daily_limits. rewrite H. cbn [py_ne_date].
  rewrite Z.eqb_refl. reflexivity.
Qed.

(** C1, what the code does.  [open_position] records the whole timestamp,
    time of day included, as last-trade date (see
    [open_position_records_timestamp]), and a date-time never equals a date.
    So once a trade has been opened, [check_signal] at any valid index
    i >= 5 sets the daily trade count and the daily P&L to 0, also when the
    current row is of the very day of that trade. *)
Theorem check_signal_resets_within_the_day :
  forall self df i current prev prev2 tod,
    (5 <= i)%Z ->
    iloc df i = Ok current ->
    iloc df (i - 1) = Ok prev ->
    iloc df (i - 2) = Ok prev2 ->
    last_trade_date self = Some (DateTime (Row.name_day current) tod) ->
    let self' := fst (check_signal self df (Some i)) in
    daily_trade_count self' = 0%Z /\ daily_pnl self' = 0.
Proof.
  intros self df i current prev prev2 tod Hi Hc Hp Hp2 Hd self'.
  subst self'. unfold check_signal.
  replace (i <? 5)%Z with false by (symmetry; apply Z.ltb_ge; lia).
  rewrite Hc, Hp, Hp2. cbn [bind].
  unfold reset_daily_limits. rewrite Hd. cbn [py_ne_date].
  destruct (limit_reached _); split; reflexivity.
Qed.

Lemma check_signal_resets_within_the_day_witness :
  last_trade_date engine_after_trade = Some (DateTime 1 0)
  /\ Forall (fun r => Row.name_day r = 1%Z) df_day1
  /\ daily_trade_count engine_after_trade = 1%Z
  /\ daily_pnl engine_after_trade == 600
  /\ daily_trade_count
       (fst (check_signal engine_after_trade df_day1 (Some 5%Z))) = 0%Z
  /\ daily_pnl (fst (check_signal engine_after_trade df_day1 (Some 5%Z))) = 0.
Proof.
  split; [reflexivity |].
  split; [repeat constructor |].
  split; [reflexivity |].
  split; [vm_compute; reflexivity |].
  apply (check_signal_resets_within_the_day engine_after_trade df_day1 5%Z
           (plain_row 1 4500 10 9 (19 # 2)) (plain_row 1 3600 10 9 (19 # 2))
           (plain_row 1 2700 10 9 (19 # 2)) 0);
    [lia | reflexivity | reflexivity | reflexivity | reflexivity].
Defined.

(** C9, against the claim.  On [df_spike] at index 5 the code returns the
    long breakout signal, although the close, 11, does not exceed the high,
    12, of the row just before the current one, which is one of the prior
    four rows. *)
Lemma breakout_ignores_previous_row :
  snd (check_signal engine0 df_spike (Some 5%Z))
  = Ok (Some (Signal.mk Long 11 2 (Some breakout) (Some (8 # 10))))
  /\ ~ breakout_long_as_specified df_spike 5.
Proof.
  split; [vm_compute; reflexivity |].
  intros [cur [Hc [_ [H _]]]].
  injection Hc as Hc. subst cur.
  specialize (H (plain_row 1 3600 12 9 10)).
  assert (I : In (plain_row 1 3600 12 9 10) (prior_rows df_spike 5 4))
    by (vm_compute; tauto).
  specialize (H I). vm_compute in H. discriminate H.
Qed.

Lemma breakout_long_exactly_when_witness :
  snd (check_signal engine0 df_breakout (Some 5%Z))
  = Ok (Some (Signal.mk Long 11 2 (Some breakout) (Some (8 # 10)))).
Proof.
  apply (breakout_long_exactly_when engine0 []
           (plain_row 1 0 10 9 (19 # 2)) (plain_row 1 900 10 9 (19 # 2))
           (plain_row 1 1800 10 9 (19 # 2)) (plain_row 1 2700 10 9 (19 # 2))
           (plain_row 1 3600 10 9 (19 # 2)) (plain_row 1 4500 (23 # 2) 10 11)
           []); try reflexivity.
  repeat split.
  - intros a b Ha Hb. cbn [In] in Ha, Hb.
    repeat (destruct Ha as [Ha | Ha]; [subst a |]); try contradiction;
      repeat (destruct Hb as [Hb | Hb]; [subst b |]); try contradiction;
      vm_compute; reflexivity.
  - intros a Ha. cbn [In] in Ha.
    repeat (destruct Ha as [Ha | Ha]; [subst a |]); try contradiction;
      vm_compute; reflexivity.
Defined.

Lemma analyze_performance_summary_witness :
  trades engine_two_trades = [trade_win; trade_loss]
  /\ exists perf pf,
       analyze_performance engine_two_trades = Ok (Some perf)
       /\ Performance.win_rate perf == 50
       /\ Performance.profit_factor perf = Fin pf
       /\ pf == Trade.pnl trade_win / Qabs (Trade.pnl trade_loss).
Proof.
  split; [reflexivity |].
  destruct analyze_performance_summary as [_ [_ H]].
  apply (H engine_two_trades trade_win trade_loss).
  - vm_compute. reflexivity.
  - vm_compute. reflexivity.
  - left. reflexivity.
  - vm_compute. discriminate.
Defined.

(** * Further properties of the engine *)

(** ** RiskSizer *)

(** X1.  For a positive ATR and positive multipliers [calculate_stops]
    brackets the entry price: stop below and target above for a long, the
    reverse for a short.  The short levels mirror the long ones around the
    entry, and target distance over stop distance is the ratio of the two
    multipliers. *)
Theorem calculate_stops_bracket :
  forall self entry atr,
    0 < atr ->
    0 < stop_atr_multiplier self ->
    0 < target_atr_multiplier self ->
    let long := calculate_stops self entry Long atr in
    let short := calculate_stops self entry Short atr in
    fst long < entry /\ entry < snd long
    /\ snd short < entry /\ entry < fst short
    /\ fst long + fst short == 2 * entry
    /\ snd long + snd short == 2 * entry
    /\ (snd long - entry) * stop_atr_multiplier self
       == (entry - fst long) * target_atr_multiplier self.
Proof.
  intros self entry atr Ha Hs Ht long short. subst long short.
  cbn [calculate_stops fst snd].
  pose proof (Qmult_lt_0_compat _ _ Ha Hs).
  pose proof (Qmult_lt_0_compat _ _ Ha Ht).
  repeat split; try lra; ring.
Qed.

Lemma calculate_stops_bracket_witness :
  let long := calculate_stops engine0 100 Long 2 in
  fst long < 100 /\ 100 < snd long /\ fst long == 96 /\ snd long == 107.
Proof.
  destruct (calculate_stops_bracket engine0 100 2) as [A [B _]];
    [reflexivity | reflexivity | reflexivity |].
  cbv zeta. split; [exact A |]. split; [exact B |].
  split; vm_compute; reflexivity.
Defined.

Lemma calculate_liquidation_price_value (self : Engine) (entry : Q)
    (t : side) :
  ~ leverage self == 0 ->
  calculate_liquidation_price self entry t
  = Ok (match t with
        | Long => entry * (1 - (9 # 10) / leverage self)
        | Short => entry * (1 + (9 # 10) / leverage self)
        end).
Proof.
  intro N. unfold calculate_liquidation_price.
  rewrite (pydiv_ok _ _ N). destruct t; reflexivity.
Qed.

(** X2.  [calculate_liquidation_price] raises [ZeroDivisionError] exactly
    when the leverage is zero.  Otherwise the long and the short level
    mirror each other around the entry price; for a positive entry price
    and a positive leverage the long level is below and the short level
    above the entry, and the long level is positive as soon as the leverage
    exceeds 0.9. *)
Theorem calculate_liquidation_price_levels :
  forall self entry,
    (leverage self == 0 ->
     forall t,
       calculate_liquidation_price self entry t = Raise ZeroDivisionError)
    /\ (~ leverage self == 0 ->
        exists l s,
          calculate_liquidation_price self entry Long = Ok l
          /\ calculate_liquidation_price self entry Short = Ok s
          /\ l + s == 2 * entry
          /\ (0 < entry -> 0 < leverage self -> l < entry /\ entry < s)
          /\ (0 < entry -> 9 # 10 < leverage self -> 0 < l)).
Proof.
  intros self entry. split.
  - intros Z0 t. unfold calculate_liquidation_price.
    rewrite (pydiv_zero _ _ Z0). destruct t; reflexivity.
  - intro N.
    exists (entry * (1 - (9 # 10) / leverage self)).
    exists (entry * (1 + (9 # 10) / leverage self)).
    split; [now apply calculate_liquidation_price_value |].
    split; [now apply calculate_liquidation_price_value |].
    split; [ring |]. split.
    + intros He Hl.
      assert (D : 0 < (9 # 10) / leverage self).
      { apply Qlt_shift_div_l; [exact Hl | lra]. }
      pose proof (Qmult_lt_0_compat _ _ He D). split; lra.
    + intros He Hl.
      assert (P : 0 < leverage self) by lra.
      assert (D : (9 # 10) / leverage self < 1).
      { apply Qlt_shift_div_r; [exact P | lra]. }
      apply Qmult_lt_0_compat; lra.
Qed.

Lemma calculate_liquidation_price_levels_witness :
  exists l,
    calculate_liquidation_price (init 10000 5 (2 # 100)) 100 Long = Ok l
    /\ l == 82.
Proof.
  destruct (calculate_liquidation_price_levels (init 10000 5 (2 # 100)) 100)
    as [_ H].
  destruct H as [l [s [A _]]]; [vm_compute; discriminate |].
  exists l. split; [exact A |].
  vm_compute in A. injection A as A. subst l. vm_compute. reflexivity.
Defined.

(** ** PositionManager: opening *)

(** The size is never above the cap, and with a zero leverage or no capital
    it is never positive. *)
Lemma calculate_position_size_cap (self : Engine) (entry stop conf v : Q) :
  calculate_position_size self entry stop conf = Ok v ->
  (~ entry == stop -> v <= capital self * leverage self * (1 # 2))
  /\ (0 < v -> ~ entry == stop)
  /\ (0 < v ->
      v <= capital self * risk_per_trade self * conf / Qabs (entry - stop)
           * leverage self).
Proof.
  intro H. destruct (Qeq_dec entry stop) as [E | N].
  - rewrite (calculate_position_size_zero _ _ _ _ E) in H.
    injection H as H. subst v. repeat split; intros; try contradiction;
      exfalso; lra.
  - rewrite (calculate_position_size_value _ _ _ _ N) in H.
    injection H as H. subst v. rewrite py_min_Qmin.
    repeat split; intros; try assumption.
    + apply Q.le_min_r.
    + apply Q.le_min_l.
Qed.

(** [open_position] returns true or false, and false with the engine as it
    was. *)
Lemma open_position_outcome :
  forall self signal ts,
    exists b,
      snd (open_position self signal ts) = Ok b
      /\ (b = false -> fst (open_position self signal ts) = self).
Proof.
  intros self signal ts. unfold open_position.
  destruct (calculate_stops _ _ _ _) as [sl tp].
  destruct (calculate_position_size_total self (Signal.price signal) sl
              (match Signal.confidence signal with
               | Some c => c | None => 1 end)) as [v Hv].
  rewrite Hv. destruct (Qleb v 0) eqn:Z0.
  - exists false. split; reflexivity.
  - apply Qleb_gt in Z0.
    destruct (calculate_position_size_cap _ _ _ _ _ Hv) as [C [N _]].
    assert (L : ~ leverage self == 0).
    { intro L0. specialize (C (N Z0)).
      assert (E0 : capital self * leverage self * (1 # 2) == 0)
        by (rewrite L0; ring).
      rewrite E0 in C. apply (Qlt_irrefl 0).
      apply (Qlt_le_trans _ _ _ Z0 C). }
    rewrite (calculate_liquidation_price_value _ _ _ L).
    exists true. split; [reflexivity | discriminate].
Qed.

(** X3.  [open_position] never raises: the zero stop distance is guarded in
    [calculate_position_size], and with a zero leverage the size is not
    positive, so the division in [calculate_liquidation_price] is not
    reached.  When it returns false the engine is left exactly as it was. *)
Theorem open_position_never_raises :
  forall self signal ts,
    exists b,
      snd (open_position self signal ts) = Ok b
      /\ (b = false -> fst (open_position self signal ts) = self).
Proof.
  intros self signal ts.
  destruct (open_position_outcome self signal ts) as [b [R U]].
  exists b. split; assumption.
Qed.

(** The position and the engine after a successful open. *)
Lemma open_position_created :
  forall self self' signal ts,
    open_position self signal ts = (self', Ok true) ->
    exists pos,
      position self' = Some pos
      /\ Position.type pos = Signal.type signal
      /\ Position.entry_price pos = Signal.price signal
      /\ (Position.stop_loss pos, Position.take_profit pos)
         = calculate_stops self (Signal.price signal) (Signal.type signal)
             (Signal.atr signal)
      /\ 0 < Position.size pos
      /\ Position.size pos <= capital self * leverage self * (1 # 2)
      /\ ~ Position.stop_loss pos == Position.entry_price pos
      /\ Position.size pos
         * Qabs (Position.entry_price pos - Position.stop_loss pos)
         <= capital self * risk_per_trade self * Position.confidence pos
            * leverage self
      /\ Position.entry_capital pos = capital self
      /\ ~ capital self == 0
      /\ Position.trailing_stop pos = None
      /\ capital self' = capital self
      /\ trades self' = trades self
      /\ daily_pnl self' = daily_pnl self
      /\ daily_trade_count self' = (daily_trade_count self + 1)%Z.
Proof.
  intros self self' signal ts. unfold open_position.
  destruct (calculate_stops _ _ _ _) as [sl tp] eqn:St.
  destruct (calculate_position_size _ _ _ _) as [v | e] eqn:Hv;
    [| discriminate].
  destruct (Qleb v 0) eqn:Z0; [discriminate |].
  destruct (calculate_liquidation_price _ _ _) as [liq | e];
    [| discriminate].
  intro E. injection E as E. subst self'.
  apply Qleb_gt in Z0.
  destruct (calculate_position_size_cap _ _ _ _ _ Hv) as [C [N R]].
  specialize (N Z0). specialize (C N). specialize (R Z0).
  assert (D : 0 < Qabs (Signal.price signal - sl)).
  { pose proof (Qabs_nonneg (Signal.price signal - sl)) as G.
    apply Qnot_le_lt. intro LE. apply N, Qabs_sub_zero.
    apply Qle_antisym; assumption. }
  eexists. split; [reflexivity |].
  cbn [Position.type Position.entry_price Position.stop_loss
       Position.take_profit Position.size Position.entry_capital
       Position.confidence Position.trailing_stop capital trades daily_pnl
       daily_trade_count set_position set_daily_trade_count
       set_last_trade_date].
  repeat split; try assumption.
  - intro E. apply N. symmetry. exact E.
  - apply Qle_trans with
      (capital self * risk_per_trade self
       * match Signal.confidence signal with Some c => c | None => 1 end
       / Qabs (Signal.price signal - sl) * leverage self
       * Qabs (Signal.price signal - sl)).
    + apply Qmult_le_compat_r; [exact R | apply Qlt_le_weak, D].
    + apply Qle_lteq. right. field. intro Z. rewrite Z in D.
      apply (Qlt_irrefl _ D).
  - intro C0.
    assert (E0 : capital self * leverage self * (1 # 2) == 0)
      by (rewrite C0; ring).
    rewrite E0 in C. apply (Qlt_irrefl 0). apply (Qlt_le_trans _ _ _ Z0 C).
Qed.

(** X4.  Every position created by [open_position] has a positive size of
    at most half of capital x leverage, a stop at a non-zero distance from
    the entry, the capital at the time of the call as its entry capital
    (which is then not zero), and no trailing stop.  Its loss at the stop,
    size x stop distance, is at most capital x riskPerTrade x confidence x
    leverage.  Capital, trade log and daily P&L are not touched. *)
Theorem open_position_creates :
  forall self self' signal ts,
    open_position self signal ts = (self', Ok true) ->
    exists pos,
      position self' = Some pos
      /\ Position.type pos = Signal.type signal
      /\ Position.entry_price pos = Signal.price signal
      /\ (Position.stop_loss pos, Position.take_profit pos)
         = calculate_stops self (Signal.price signal) (Signal.type signal)
             (Signal.atr signal)
      /\ 0 < Position.size pos
      /\ Position.size pos <= capital self * leverage self * (1 # 2)
      /\ ~ Position.stop_loss pos == Position.entry_price pos
      /\ Position.size pos
         * Qabs (Position.entry_price pos - Position.stop_loss pos)
         <= capital self * risk_per_trade self * Position.confidence pos
            * leverage self
      /\ Position.entry_capital pos = capital self
      /\ ~ capital self == 0
      /\ Position.trailing_stop pos = None
      /\ capital self' = capital self
      /\ trades self' = trades self
      /\ daily_pnl self' = daily_pnl self
      /\ daily_trade_count self' = (daily_trade_count self + 1)%Z.
Proof.
  intros self self' signal ts H.
  destruct (open_position_created self self' signal ts H) as [pos F].
  exists pos. exact F.
Qed.

Lemma open_position_creates_witness :
  exists pos,
    position engine_open = Some pos
    /\ Position.size pos == 150
    /\ 0 < Position.size pos
    /\ Position.size pos <= capital engine0 * leverage engine0 * (1 # 2).
Proof.
  destruct (open_position_creates engine0 engine_open signal_a
              (Stamp (DateTime 1 0)) eq_refl)
    as [pos [P [_ [_ [_ [A [B _]]]]]]].
  exists pos. split; [exact P |]. split; [| split; assumption].
  vm_compute in P. injection P as P. subst pos. vm_compute. reflexivity.
Defined.

Lemma open_position_never_raises_witness :
  open_position (init 10000 0 (2 # 100)) signal_a (Stamp (DateTime 1 0))
  = (init 10000 0 (2 # 100), Ok false).
Proof.
  destruct (open_position_never_raises (init 10000 0 (2 # 100)) signal_a
              (Stamp (DateTime 1 0))) as [b [R U]].
  rewrite (surjective_pairing (open_position _ _ _)). rewrite R.
  assert (B : b = false).
  { vm_compute in R. injection R as R. symmetry. exact R. }
  rewrite (U B), B. reflexivity.
Defined.

(** ** PositionManager: exit evaluation, continued *)

(** All case splits of one [should_exit_position] call. *)
Ltac exit_cases :=
  repeat first
    [ split_if
    | match goal with
      | |- context [match pydiv ?a ?b with Ok _ => _ | Raise _ => _ end] =>
          destruct (pydiv a b) eqn:?
      | |- context [match Position.trailing_stop ?p with
                    | Some _ => _ | None => _ end] =>
          destruct (Position.trailing_stop p) eqn:?
      | |- context [match Position.type ?p with Long => _ | Short => _ end] =>
          destruct (Position.type p) eqn:?
      end ].

Lemma update_trailing_frame (pos : Position.t) (cand : Q) :
  let pos' := update_trailing pos cand in
  Position.type pos' = Position.type pos
  /\ Position.entry_price pos' = Position.entry_price pos
  /\ Position.size pos' = Position.size pos
  /\ Position.stop_loss pos' = Position.stop_loss pos
  /\ Position.take_profit pos' = Position.take_profit pos
  /\ Position.liquidation_price pos' = Position.liquidation_price pos
  /\ Position.entry_time pos' = Position.entry_time pos
  /\ Position.entry_capital pos' = Position.entry_capital pos
  /\ Position.confidence pos' = Position.confidence pos
  /\ Position.pattern pos' = Position.pattern pos.
Proof.
  intro pos'. subst pos'. unfold update_trailing.
  destruct pos as [ty ep sz sl tp liq et ec cf pt [stored |]];
    destruct ty; cbn; repeat split_if; repeat split.
Qed.

(** What [should_exit_position] leaves as it is. *)
Lemma should_exit_position_keeps :
  forall self current_price current_atr,
    let self' := fst (should_exit_position self current_price current_atr) in
    capital self' = capital self
    /\ initial_capital self' = initial_capital self
    /\ trades self' = trades self
    /\ daily_pnl self' = daily_pnl self
    /\ daily_trade_count self' = daily_trade_count self
    /\ last_trade_date self' = last_trade_date self
    /\ match position self with
       | None => position self' = None
       | Some pos =>
           exists pos',
             position self' = Some pos'
             /\ Position.type pos' = Position.type pos
             /\ Position.entry_price pos' = Position.entry_price pos
             /\ Position.size pos' = Position.size pos
             /\ Position.stop_loss pos' = Position.stop_loss pos
             /\ Position.take_profit pos' = Position.take_profit pos
             /\ Position.liquidation_price pos'
                = Position.liquidation_price pos
             /\ Position.entry_time pos' = Position.entry_time pos
             /\ Position.entry_capital pos' = Position.entry_capital pos
             /\ Position.confidence pos' = Position.confidence pos
             /\ Position.pattern pos' = Position.pattern pos
       end.
Proof.
  intros self price atr self'. subst self'.
  destruct (position self) as [pos |] eqn:P.
  - destruct (should_exit_position_state self pos price atr P)
      as [E | [c E]]; rewrite E.
    + repeat split. exists pos. rewrite P. repeat split.
    + repeat split. exists (update_trailing pos c).
      split; [reflexivity |]. apply update_trailing_frame.
  - unfold should_exit_position. rewrite P. cbn [fst]. repeat split.
    exact P.
Qed.

(** X5.  [should_exit_position] changes nothing but the trailing stop of
    the open position: capital, trade log, daily counters, last-trade date
    and settings stay, a flat engine stays flat, and an open position keeps
    every field other than ['trailing_stop']. *)
Theorem should_exit_position_frame :
  forall self current_price current_atr,
    let self' := fst (should_exit_position self current_price current_atr) in
    capital self' = capital self
    /\ initial_capital self' = initial_capital self
    /\ trades self' = trades self
    /\ daily_pnl self' = daily_pnl self
    /\ daily_trade_count self' = daily_trade_count self
    /\ last_trade_date self' = last_trade_date self
    /\ match position self with
       | None => position self' = None
       | Some pos =>
           exists pos',
             position self' = Some pos'
             /\ Position.type pos' = Position.type pos
             /\ Position.entry_price pos' = Position.entry_price pos
             /\ Position.size pos' = Position.size pos
             /\ Position.stop_loss pos' = Position.stop_loss pos
             /\ Position.take_profit pos' = Position.take_profit pos
             /\ Position.liquidation_price pos'
                = Position.liquidation_price pos
             /\ Position.entry_time pos' = Position.entry_time pos
             /\ Position.entry_capital pos' = Position.entry_capital pos
             /\ Position.confidence pos' = Position.confidence pos
             /\ Position.pattern pos' = Position.pattern pos
       end.
Proof.
  intros self current_price current_atr.
  apply (should_exit_position_keeps self current_price current_atr).
Qed.


(** X6.  Liquidation comes first: for an open position with a non-zero
    entry price, [should_exit_position] answers (true, LIQUIDATION), and
    touches nothing, exactly when the price is at or beyond the liquidation
    price, whatever the ATR, the stops and the trailing stop are. *)
Theorem liquidation_checked_first :
  forall self pos current_price current_atr,
    position self = Some pos ->
    ~ Position.entry_price pos == 0 ->
    (past_liquidation pos current_price
     <-> should_exit_position self current_price current_atr
         = (self, Ok (true, Some LIQUIDATION))).
Proof.
  intros self pos price atr P N.
  unfold past_liquidation, should_exit_position. rewrite P.
  destruct (Position.type pos) eqn:Ty; rewrite (pydiv_ok _ _ N).
  - destruct (Qleb price (Position.liquidation_price pos)) eqn:L.
    + apply Qleb_le in L. split; [reflexivity | intros _; exact L].
    + split.
      * intro H. apply Qleb_le in H. congruence.
      * unfold regular_stops. exit_cases; intro H; inversion H.
  - destruct (Qleb (Position.liquidation_price pos) price) eqn:L.
    + apply Qleb_le in L. split; [reflexivity | intros _; exact L].
    + split.
      * intro H. apply Qleb_le in H. congruence.
      * unfold regular_stops. exit_cases; intro H; inversion H.
Qed.

Lemma liquidation_checked_first_witness :
  should_exit_position engine_armed 69 (Some 2)
  = (engine_armed, Ok (true, Some LIQUIDATION)).
Proof.
  apply (liquidation_checked_first engine_armed pos_armed 69 (Some 2)
           eq_refl).
  - vm_compute. discriminate.
  - vm_compute. discriminate.
Defined.

Lemma regular_stops_spec (pos : Position.t) (price : Q) (b : bool)
    (r : option reason) :
  regular_stops (Position.type pos) (Position.stop_loss pos)
    (Position.take_profit pos) price = (b, r) ->
  (b = true <-> r <> None)
  /\ (b = false -> inside_bracket pos price)
  /\ r <> Some LIQUIDATION /\ r <> Some TRAILING_STOP.
Proof.
  unfold regular_stops, inside_bracket.
  destruct (Position.type pos); repeat split_if; intro H; inversion H;
    subst; (split; [split; [discriminate | congruence] |]);
    (split; [| split; discriminate]); try discriminate; intros _;
    repeat match goal with
           | H : Qleb _ _ = false |- _ => apply Qleb_gt in H
           end; split; assumption.
Qed.

(** X7.  In the answer of [should_exit_position] the flag is true exactly
    when a reason comes with it.  When the answer is (false, none) on an
    open position, the price is strictly on the safe side of the
    liquidation price and strictly between stop-loss and take-profit. *)
Theorem no_exit_means_inside_bracket :
  forall self current_price current_atr b r,
    snd (should_exit_position self current_price current_atr) = Ok (b, r) ->
    (b = true <-> r <> None)
    /\ (b = false ->
        forall pos,
          position self = Some pos ->
          ~ past_liquidation pos current_price
          /\ inside_bracket pos current_price).
Proof.
  intros self price atr b r.
  unfold should_exit_position.
  destruct (position self) as [pos |] eqn:P.
  - unfold past_liquidation.
    destruct (Position.type pos) eqn:Ty;
      match goal with |- context [pydiv ?a ?b] => destruct (pydiv a b) end;
      try discriminate;
      (destruct (Qleb _ _) eqn:L;
       [intro H; inversion H; subst;
        split; [split; [discriminate | reflexivity] | discriminate] |]);
      apply Qleb_gt in L;
      assert (NL : forall p0, Some pos = Some p0 ->
                   ~ match Position.type p0 with
                     | Long => price <= Position.liquidation_price p0
                     | Short => Position.liquidation_price p0 <= price
                     end)
        by (intros p0 E; injection E as E; subst p0; rewrite Ty;
            apply Qlt_not_le, L);
      rewrite <- Ty;
      exit_cases; cbn [snd]; intro H;
      try (inversion H; subst;
           split; [split; [discriminate | reflexivity] | discriminate]);
      injection H as H;
      destruct (regular_stops_spec pos price b r H) as [A [B _]];
      (split; [exact A |]); intros Hb p0 E; (split; [now apply NL |]);
      injection E as E; subst p0; now apply B.
  - cbn [snd]. intro H. inversion H; subst.
    split; [split; [discriminate | congruence] |].
    intros _ pos E. discriminate E.
Qed.

Lemma no_exit_means_inside_bracket_witness :
  snd (should_exit_position engine_open 101 (Some 2)) = Ok (false, None)
  /\ forall pos,
       position engine_open = Some pos ->
       ~ past_liquidation pos 101 /\ inside_bracket pos 101.
Proof.
  assert (E : snd (should_exit_position engine_open 101 (Some 2))
              = Ok (false, None)) by (vm_compute; reflexivity).
  split; [exact E |].
  destruct (no_exit_means_inside_bracket engine_open 101 (Some 2) false None
              E) as [_ H].
  apply H. reflexivity.
Defined.

Lemma regular_stops_not_trailing (t : side) (sl tp p : Q) :
  regular_stops t sl tp p <> (true, Some TRAILING_STOP).
Proof. unfold regular_stops. destruct t; repeat split_if; discriminate. Qed.

(** Turns the decided [<=] tests of the context into propositions. *)
Ltac to_le :=
  repeat match goal with
         | H : Qleb _ _ = true |- _ => apply Qleb_le in H
         end.

(** Closes a goal whose hypothesis says that the regular stops answered
    TRAILING_STOP. *)
Ltac not_trailing :=
  cbn [snd];
  let H := fresh "H" in
  intro H; exfalso;
  match type of H with
  | Ok ?x = _ =>
      let R := fresh "R" in
      assert (R : x <> (true, Some TRAILING_STOP))
        by apply regular_stops_not_trailing;
      apply R; congruence
  end.

(** X8.  A trailing-stop exit is always triggered by a level stored on an
    earlier call, never by the level computed on the same call: when
    ATR x stop multiplier is positive and the answer is TRAILING_STOP, a
    trailing stop was already stored, the price is at or beyond it, and the
    call leaves the engine unchanged. *)
Theorem trailing_exit_uses_stored_level :
  forall self pos current_price current_atr,
    position self = Some pos ->
    0 < current_atr * stop_atr_multiplier self ->
    snd (should_exit_position self current_price (Some current_atr))
    = Ok (true, Some TRAILING_STOP) ->
    exists stored,
      Position.trailing_stop pos = Some stored
      /\ stop_crossed pos stored current_price
      /\ fst (should_exit_position self current_price (Some current_atr))
         = self.
Proof.
  intros self pos price atr P Hpos.
  assert (D : 0 < atr * stop_atr_multiplier self * (3 # 4)) by lra.
  unfold should_exit_position, stop_crossed. rewrite P.
  destruct (Position.type pos) eqn:Ty;
    match goal with |- context [pydiv ?a ?b] => destruct (pydiv a b) end;
    try discriminate;
    (destruct (Qleb _ _) eqn:L; [discriminate |]);
    (destruct (truthy (Some atr) && _) eqn:A;
     [| not_trailing]);
    unfold update_trailing; rewrite Ty;
    destruct (Position.trailing_stop pos) as [stored |] eqn:T.
  - destruct (Qltb stored _) eqn:U; cbn [Position.trailing_stop
      Position.set_trailing_stop]; [| rewrite T].
    + split_if.
      * to_le. exfalso. lra.
      * not_trailing.
    + split_if.
      * intros _. exists stored. split; [reflexivity |].
        split; [to_le; assumption |]. cbn [fst].
        now apply set_position_same.
      * not_trailing.
  - cbn [Position.trailing_stop Position.set_trailing_stop].
    split_if.
    + to_le. exfalso. lra.
    + not_trailing.
  - destruct (Qltb _ stored) eqn:U; cbn [Position.trailing_stop
      Position.set_trailing_stop]; [| rewrite T].
    + split_if.
      * to_le. exfalso. lra.
      * not_trailing.
    + split_if.
      * intros _. exists stored. split; [reflexivity |].
        split; [to_le; assumption |]. cbn [fst].
        now apply set_position_same.
      * not_trailing.
  - cbn [Position.trailing_stop Position.set_trailing_stop].
    split_if.
    + to_le. exfalso. lra.
    + not_trailing.
Qed.

Lemma trailing_exit_uses_stored_level_witness :
  exists stored,
    Position.trailing_stop pos_armed = Some stored
    /\ stop_crossed pos_armed stored 102
    /\ fst (should_exit_position engine_armed 102 (Some 2)) = engine_armed.
Proof.
  apply (trailing_exit_uses_stored_level engine_armed pos_armed 102 2
           eq_refl).
  - vm_compute. reflexivity.
  - vm_compute. reflexivity.
Defined.

Lemma inside_bracket_regular_stops (pos : Position.t) (price : Q) :
  inside_bracket pos price ->
  regular_stops (Position.type pos) (Position.stop_loss pos)
    (Position.take_profit pos) price = (false, None).
Proof.
  unfold inside_bracket, regular_stops.
  destruct (Position.type pos); intros [A B];
    apply Qleb_gt in A; apply Qleb_gt in B; rewrite ?A, ?B; try reflexivity.
  all: rewrite B, A; reflexivity.
Qed.

(** X9.  A stored trailing stop is only enforced while the unrealized P&L
    percentage is above the activation threshold.  At or below the
    threshold [should_exit_position] leaves the engine unchanged and never
    answers TRAILING_STOP; with the price on the safe side of the
    liquidation price and strictly inside the stop/target bracket it
    answers (false, none), whatever trailing stop is stored, so also when
    the price has fallen through it. *)
Theorem trailing_stop_ignored_below_activation :
  forall self pos current_price current_atr,
    position self = Some pos ->
    ~ Position.entry_price pos == 0 ->
    unrealized_pct pos current_price <= trailing_activation self ->
    let out := should_exit_position self current_price current_atr in
    fst out = self
    /\ snd out <> Ok (true, Some TRAILING_STOP)
    /\ (~ past_liquidation pos current_price ->
        inside_bracket pos current_price ->
        snd out = Ok (false, None)).
Proof.
  intros self pos price atr P N U out. subst out.
  pose proof (inside_bracket_regular_stops pos price) as IB.
  unfold unrealized_pct in U. unfold past_liquidation.
  unfold should_exit_position. rewrite P.
  destruct (Position.type pos) eqn:Ty; rewrite (pydiv_ok _ _ N);
    apply Qltb_ge in U; rewrite U, andb_false_r;
    split_if; cbn [fst snd]; (split; [reflexivity |]);
    (split; [first [discriminate | not_trailing] |]);
    intros NL I; [exfalso; apply NL; to_le; assumption | |
                  exfalso; apply NL; to_le; assumption |];
    f_equal; now apply IB.
Qed.

Lemma trailing_stop_ignored_below_activation_witness :
  Position.trailing_stop pos_armed = Some 102
  /\ 101 <= 102
  /\ should_exit_position engine_armed 101 (Some 2)
     = (engine_armed, Ok (false, None)).
Proof.
  split; [reflexivity |]. split; [vm_compute; discriminate |].
  destruct (trailing_stop_ignored_below_activation engine_armed pos_armed
              101 (Some 2) eq_refl) as [A [_ B]].
  - vm_compute. discriminate.
  - vm_compute. discriminate.
  - rewrite (surjective_pairing (should_exit_position _ _ _)).
    rewrite A, B; [reflexivity | |].
    + vm_compute. intro H. apply H. reflexivity.
    + vm_compute. split; reflexivity.
Defined.

(** ** PositionManager: closing, and opening then closing *)

(** The engine and the record after a close that does not raise. *)
Lemma close_position_ok (self : Engine) (pos : Position.t) (exit_price : Q)
    (ts : timestamp) (r : reason) :
  position self = Some pos ->
  ~ Position.entry_capital pos == 0 ->
  let pnl := realized_pnl pos exit_price r in
  let rec :=
    Trade.mk (Position.entry_time pos) ts (Position.type pos)
      (Position.entry_price pos) exit_price (Position.size pos) pnl
      (pnl / Position.entry_capital pos * 100) r (Position.pattern pos) in
  close_position self exit_price ts r
  = (set_position
       (set_trades
          (set_daily_pnl (set_capital self (capital self + pnl))
             (daily_pnl self + pnl))
          (trades self ++ [rec]))
       None,
     Ok (Some rec)).
Proof.
  intros P N pnl rec. subst pnl rec.
  unfold close_position, realized_pnl. rewrite P, (pydiv_ok _ _ N).
  destruct (reason_eqb r LIQUIDATION), (Position.type pos); reflexivity.
Qed.

Lemma reason_eqb_liquidation (r : reason) :
  r <> LIQUIDATION -> reason_eqb r LIQUIDATION = false.
Proof. destruct r; try reflexivity. congruence. Qed.

(** X10.  Opening a position and closing it at its entry price, for any
    reason but LIQUIDATION, realizes a P&L of zero: the capital is back at
    its value before the open, the engine is flat again, and the trade log
    has grown by exactly the returned record. *)
Theorem open_then_close_at_entry :
  forall self self1 signal ts ts' r,
    open_position self signal ts = (self1, Ok true) ->
    r <> LIQUIDATION ->
    exists self2 rec,
      close_position self1 (Signal.price signal) ts' r
      = (self2, Ok (Some rec))
      /\ Trade.pnl rec == 0
      /\ capital self2 == capital self
      /\ daily_pnl self2 == daily_pnl self
      /\ position self2 = None
      /\ trades self2 = trades self ++ [rec].
Proof.
  intros self self1 signal ts ts' r Ho Hr.
  destruct (open_position_created _ _ _ _ Ho)
    as [pos [P [Ty [Ep [_ [_ [_ [_ [_ [Ec [Nc [_ [C [T [D _]]]]]]]]]]]]]]].
  assert (N : ~ Position.entry_capital pos == 0) by (rewrite Ec; exact Nc).
  rewrite (close_position_ok self1 pos _ ts' r P N).
  eexists. eexists. split; [reflexivity |].
  cbn [Trade.pnl capital daily_pnl position trades set_position set_trades
       set_daily_pnl set_capital].
  assert (Z : realized_pnl pos (Signal.price signal) r == 0).
  { unfold realized_pnl. rewrite (reason_eqb_liquidation r Hr), Ep.
    destruct (Position.type pos); ring. }
  split; [exact Z |].
  split; [rewrite C, Z; ring |].
  split; [rewrite D, Z; ring |].
  split; [reflexivity |].
  rewrite T. reflexivity.
Qed.

Lemma open_then_close_at_entry_witness :
  exists self2 rec,
    close_position engine_open 100 (Stamp (DateTime 1 900)) END_OF_DATA
    = (self2, Ok (Some rec))
    /\ Trade.pnl rec == 0
    /\ capital self2 == capital engine0.
Proof.
  destruct (open_then_close_at_entry engine0 engine_open signal_a
              (Stamp (DateTime 1 0)) (Stamp (DateTime 1 900)) END_OF_DATA
              eq_refl) as [self2 [rec [A [B [C _]]]]];
    [discriminate |].
  exists self2, rec. repeat split; assumption.
Defined.

(** X11.  A liquidation costs nine tenths of the whole account: after
    [open_position] has opened a position, closing it with reason
    LIQUIDATION leaves one tenth of the capital held before the open,
    whatever the size of the position, the leverage and the exit price. *)
Theorem liquidation_leaves_a_tenth :
  forall self self1 signal ts exit_price ts',
    open_position self signal ts = (self1, Ok true) ->
    exists self2 rec,
      close_position self1 exit_price ts' LIQUIDATION
      = (self2, Ok (Some rec))
      /\ capital self2 == (1 # 10) * capital self
      /\ Trade.pnl_percent rec == - 90.
Proof.
  intros self self1 signal ts exit_price ts' Ho.
  destruct (open_position_created _ _ _ _ Ho)
    as [pos [P [_ [_ [_ [_ [_ [_ [_ [Ec [Nc [_ [C _]]]]]]]]]]]]].
  assert (N : ~ Position.entry_capital pos == 0) by (rewrite Ec; exact Nc).
  rewrite (close_position_ok self1 pos _ ts' LIQUIDATION P N).
  eexists. eexists. split; [reflexivity |].
  cbn [Trade.pnl_percent capital set_position set_trades set_daily_pnl
       set_capital].
  unfold realized_pnl. cbn [reason_eqb]. split.
  - rewrite C, Ec. ring.
  - rewrite Ec. field. exact Nc.
Qed.

Lemma liquidation_leaves_a_tenth_witness :
  exists self2 rec,
    close_position engine_open 69 (Stamp (DateTime 1 900)) LIQUIDATION
    = (self2, Ok (Some rec))
    /\ capital self2 == (1 # 10) * capital engine0
    /\ Trade.pnl_percent rec == - 90.
Proof.
  exact (liquidation_leaves_a_tenth engine0 engine_open signal_a
           (Stamp (DateTime 1 0)) 69 (Stamp (DateTime 1 900)) eq_refl).
Defined.

(** X12.  The loss of a stop-out is bounded by the risk budget times the
    leverage: after [open_position] has opened a position from a signal
    with a positive ATR x stop multiplier, closing it at its stop-loss price
    with reason STOP_LOSS realizes a loss of size x stop distance, which is
    at most capital x riskPerTrade x confidence x leverage. *)
Theorem stop_out_loss_bound :
  forall self self1 signal ts pos ts',
    open_position self signal ts = (self1, Ok true) ->
    position self1 = Some pos ->
    0 < Signal.atr signal * stop_atr_multiplier self ->
    exists self2 rec,
      close_position self1 (Position.stop_loss pos) ts' STOP_LOSS
      = (self2, Ok (Some rec))
      /\ Trade.pnl rec
         == - (Position.size pos
               * Qabs (Position.entry_price pos - Position.stop_loss pos))
      /\ Trade.pnl rec < 0
      /\ - (capital self * risk_per_trade self * Position.confidence pos
            * leverage self) <= Trade.pnl rec.
Proof.
  intros self self1 signal ts pos ts' Ho P Ha.
  destruct (open_position_created _ _ _ _ Ho)
    as [pos' [P' [Ty [Ep [St [Sz [_ [Ns [R [Ec [Nc _]]]]]]]]]]].
  rewrite P in P'. injection P' as P'. subst pos'.
  assert (N : ~ Position.entry_capital pos == 0) by (rewrite Ec; exact Nc).
  rewrite (close_position_ok self1 pos _ ts' STOP_LOSS P N).
  eexists. eexists. split; [reflexivity |].
  cbn [Trade.pnl]. unfold realized_pnl. cbn [reason_eqb].
  set (d := Signal.atr signal * stop_atr_multiplier self) in *.
  assert (V : Trade.pnl
                (Trade.mk (Position.entry_time pos) ts' (Position.type pos)
                   (Position.entry_price pos) (Position.stop_loss pos)
                   (Position.size pos)
                   (match Position.type pos with
                    | Long =>
                        (Position.stop_loss pos - Position.entry_price pos)
                        * Position.size pos
                    | Short =>
                        (Position.entry_price pos - Position.stop_loss pos)
                        * Position.size pos
                    end) 0 STOP_LOSS (Position.pattern pos))
              == - (Position.size pos * d)
              /\ Qabs (Position.entry_price pos - Position.stop_loss pos)
                 == d).
  { cbn [Trade.pnl]. unfold calculate_stops in St. rewrite <- Ty in St.
    destruct (Position.type pos); injection St as S1 S2; rewrite S1, Ep;
      fold d.
    - split; [ring |].
      setoid_replace (Signal.price signal - (Signal.price signal - d))
        with d by ring.
      apply Qabs_pos, Qlt_le_weak, Ha.
    - split; [ring |].
      setoid_replace (Signal.price signal - (Signal.price signal + d))
        with (- d) by ring.
      rewrite Qabs_opp. apply Qabs_pos, Qlt_le_weak, Ha. }
  cbn [Trade.pnl] in V. destruct V as [V A].
  rewrite A in R |- *. rewrite V.
  pose proof (Qmult_lt_0_compat _ _ Sz Ha).
  repeat split; lra.
Qed.

Lemma stop_out_loss_bound_witness :
  exists self2 rec,
    close_position engine_open 96 (Stamp (DateTime 1 900)) STOP_LOSS
    = (self2, Ok (Some rec))
    /\ Trade.pnl rec < 0
    /\ - (10000 * (2 # 100) * 1 * 3) <= Trade.pnl rec.
Proof.
  destruct (position engine_open) as [pos |] eqn:P; [| discriminate P].
  destruct (stop_out_loss_bound engine0 engine_open signal_a
              (Stamp (DateTime 1 0)) pos (Stamp (DateTime 1 900))
              eq_refl P) as [self2 [rec [A [_ [B C]]]]].
  - vm_compute. reflexivity.
  - injection P as P. subst pos. exists self2, rec.
    split; [exact A |]. split; [exact B | exact C].
Defined.



(** ** SignalDetector, continued *)

(** What [check_signal] leaves as it is. *)
Lemma check_signal_keeps :
  forall self df i,
    let self' := fst (check_signal self df i) in
    capital self' = capital self
    /\ initial_capital self' = initial_capital self
    /\ position self' = position self
    /\ trades self' = trades self
    /\ last_trade_date self' = last_trade_date self
    /\ max_trades_per_day self' = max_trades_per_day self
    /\ daily_loss_limit self' = daily_loss_limit self
    /\ ((daily_trade_count self' = daily_trade_count self
         /\ daily_pnl self' = daily_pnl self)
        \/ (daily_trade_count self' = 0%Z /\ daily_pnl self' = 0)).
Proof.
  intros self df i self'. subst self'. unfold check_signal.
  destruct (_ <? 5)%Z; [cbn [fst]; repeat split; left; split; reflexivity |].
  destruct (iloc df _) as [cur |]; cbn [bind];
    [| cbn [fst]; repeat split; left; split; reflexivity].
  destruct (iloc df _) as [p1 |]; cbn [bind];
    [| cbn [fst]; repeat split; left; split; reflexivity].
  destruct (iloc df _) as [p2 |]; cbn [bind];
    [| cbn [fst]; repeat split; left; split; reflexivity].
  assert (F : forall X : result (option Signal.t),
             fst (if limit_reached (reset_daily_limits self cur)
                  then (reset_daily_limits self cur, Ok None)
                  else (reset_daily_limits self cur, X))
             = reset_daily_limits self cur)
    by (intro X; destruct (limit_reached _); reflexivity).
  rewrite F. unfold reset_daily_limits.
  destruct (last_trade_date self) as [s |] eqn:L;
    [destruct (py_ne_date s _) |]; cbn; rewrite ?L;
    repeat split; (left; split; reflexivity) || (right; split; reflexivity).
Qed.

(** X14.  [check_signal] never touches the capital, the position, the trade
    log, the last-trade date or the settings; the daily trade count and the
    daily P&L are either both left as they are or both set to zero. *)
Theorem check_signal_frame :
  forall self df i,
    let self' := fst (check_signal self df i) in
    capital self' = capital self
    /\ initial_capital self' = initial_capital self
    /\ position self' = position self
    /\ trades self' = trades self
    /\ last_trade_date self' = last_trade_date self
    /\ max_trades_per_day self' = max_trades_per_day self
    /\ daily_loss_limit self' = daily_loss_limit self
    /\ ((daily_trade_count self' = daily_trade_count self
         /\ daily_pnl self' = daily_pnl self)
        \/ (daily_trade_count self' = 0%Z /\ daily_pnl self' = 0)).
Proof.
  intros self df i.
  apply (check_signal_keeps self df i).
Qed.

(** ** The ledger *)

Lemma series_sum_snoc (xs : list Q) (x : Q) :
  series_sum (xs ++ [x]) = series_sum xs + x.
Proof. unfold series_sum. rewrite fold_left_app. reflexivity. Qed.

Lemma perform_keeps_ledger (self : Engine) (c : call) :
  books_balanced self -> position_funded self ->
  books_balanced (perform self c) /\ position_funded (perform self c)
  /\ initial_capital (perform self c) = initial_capital self.
Proof.
  intros B F. unfold books_balanced, position_funded in *.
  destruct c as [df i | p a | s ts | p ts r]; cbn [perform].
  - destruct (check_signal_keeps self df i) as [C [I [P [T _]]]].
    rewrite C, I, P, T. repeat split; assumption.
  - destruct (should_exit_position_keeps self p a)
      as [C [I [T [_ [_ [_ P]]]]]].
    rewrite C, I, T. split; [exact B |]. split; [| reflexivity].
    intros pos' E. destruct (position self) as [pos |].
    + destruct P as [q [Q1 [_ [_ [_ [_ [_ [_ [_ [Q2 _]]]]]]]]]].
      rewrite Q1 in E. injection E as E. subst q. rewrite Q2.
      now apply F.
    + rewrite P in E. discriminate E.
  - destruct (open_position_outcome self s ts) as [b [R U]].
    destruct b.
    + assert (E : open_position self s ts
                  = (fst (open_position self s ts), Ok true))
        by (rewrite <- R; apply surjective_pairing).
      destruct (open_position_created _ _ _ _ E)
        as [pos [P [_ [_ [_ [_ [_ [_ [_ [Ec [Nc [_ [C [T _]]]]]]]]]]]]]].
      rewrite C, T.
      assert (I : initial_capital (fst (open_position self s ts))
                  = initial_capital self).
      { unfold open_position.
        destruct (calculate_stops _ _ _ _).
        destruct (calculate_position_size _ _ _ _); [| reflexivity].
        destruct (Qleb _ 0); [reflexivity |].
        destruct (calculate_liquidation_price _ _ _); reflexivity. }
      rewrite I. split; [exact B |]. split; [| reflexivity].
      intros pos' E'. rewrite P in E'. injection E' as E'. subst pos'.
      rewrite Ec. exact Nc.
    + rewrite (U eq_refl). repeat split; assumption.
  - destruct (position self) as [pos |] eqn:P.
    + rewrite (close_position_ok self pos p ts r P (F pos eq_refl)).
      cbn [fst capital initial_capital trades position set_position
           set_trades set_daily_pnl set_capital].
      split; [| split; [intros q E; discriminate E | reflexivity]].
      rewrite map_app. cbn [map Trade.pnl]. rewrite series_sum_snoc.
      rewrite B. ring.
    + rewrite (close_position_flat self p ts r P).
      cbn [fst]. repeat split; try assumption.
      intros q E. rewrite P in E. discriminate E.
Qed.

(** The ledger invariant along a sequence of calls. *)
Lemma perform_all_keeps_ledger :
  forall cs self,
    books_balanced self ->
    position_funded self ->
    books_balanced (perform_all self cs)
    /\ position_funded (perform_all self cs)
    /\ initial_capital (perform_all self cs) = initial_capital self.
Proof.
  induction cs as [| c cs IH]; intros self B F.
  - repeat split; assumption.
  - destruct (perform_keeps_ledger self c B F) as [B' [F' I']].
    destruct (IH (perform self c) B' F') as [B2 [F2 I2]].
    unfold perform_all in *. cbn [fold_left].
    repeat split; try assumption. congruence.
Qed.

(** X15.  The books stay balanced.  Starting from an engine whose capital
    is its initial capital plus the P&L of its logged trades and whose
    position, if any, records a non-zero entry capital (a fresh engine is
    one), every sequence of [check_signal], [should_exit_position],
    [open_position] and [close_position] calls, with any arguments, ends in
    such an engine again: capital = initial capital + sum of the realized
    P&L in the trade log. *)
Theorem books_stay_balanced :
  forall cs self,
    books_balanced self ->
    position_funded self ->
    books_balanced (perform_all self cs)
    /\ position_funded (perform_all self cs)
    /\ initial_capital (perform_all self cs) = initial_capital self.
Proof.
  intros cs self B F.
  destruct (perform_all_keeps_ledger cs self B F) as [B' [F' I]].
  repeat split; assumption.
Qed.

Lemma books_stay_balanced_witness :
  books_balanced engine0
  /\ books_balanced
       (perform_all engine0
          [ OpenPosition signal_a (Stamp (DateTime 1 0));
            ShouldExitPosition 105 (Some 2);
            ClosePosition 104 (Stamp (DateTime 1 900)) TAKE_PROFIT;
            CheckSignal df_day1 (Some 5%Z) ]).
Proof.
  assert (B : books_balanced engine0) by (vm_compute; reflexivity).
  split; [exact B |].
  apply (books_stay_balanced _ engine0 B).
  intros pos E. discriminate E.
Defined.

(** ** SignalDetector: index, gate and signals *)

Lemma iloc_in_range (df : dataframe) (k : Z) :
  (0 <= k < Z.of_nat (length df))%Z -> exists r, iloc df k = Ok r.
Proof.
  intro H. unfold iloc.
  destruct (nth_error df (Z.to_nat k)) as [r |] eqn:E.
  - exists r. reflexivity.
  - apply nth_error_None in E. lia.
Qed.

Lemma iloc_out_of_range (df : dataframe) (k : Z) :
  (Z.of_nat (length df) <= k)%Z -> iloc df k = Raise IndexError.
Proof.
  intro H. unfold iloc.
  replace (nth_error df (Z.to_nat k)) with (@None Row.t); [reflexivity |].
  symmetry. apply nth_error_None. lia.
Qed.

(** [check_signal] at a valid index i >= 5: the daily reset, then the gate,
    then the patterns. *)
Lemma check_signal_in_range (self : Engine) (df : dataframe) (i : Z) :
  (5 <= i < Z.of_nat (length df))%Z ->
  exists current prev prev2,
    iloc df i = Ok current
    /\ iloc df (i - 1) = Ok prev
    /\ iloc df (i - 2) = Ok prev2
    /\ check_signal self df (Some i)
       = (reset_daily_limits self current,
          Ok (if limit_reached (reset_daily_limits self current)
              then None
              else detect_pattern df i current prev prev2)).
Proof.
  intro H.
  destruct (iloc_in_range df i) as [c Ec]; [lia |].
  destruct (iloc_in_range df (i - 1)) as [p1 E1]; [lia |].
  destruct (iloc_in_range df (i - 2)) as [p2 E2]; [lia |].
  exists c, p1, p2. repeat split; try assumption.
  unfold check_signal.
  replace (i <? 5)%Z with false by (symmetry; apply Z.ltb_ge; lia).
  rewrite Ec, E1, E2. cbn [bind].
  destruct (limit_reached _); reflexivity.
Qed.

Lemma check_signal_below_five (self : Engine) (df : dataframe) (i : Z) :
  (i < 5)%Z -> check_signal self df (Some i) = (self, Ok None).
Proof.
  intro H. unfold check_signal.
  replace (i <? 5)%Z with true by (symmetry; apply Z.ltb_lt; lia).
  reflexivity.
Qed.

Lemma check_signal_beyond_end (self : Engine) (df : dataframe) (i : Z) :
  (5 <= i)%Z -> (Z.of_nat (length df) <= i)%Z ->
  check_signal self df (Some i) = (self, Raise IndexError).
Proof.
  intros H5 H. unfold check_signal.
  replace (i <? 5)%Z with false by (symmetry; apply Z.ltb_ge; lia).
  rewrite (iloc_out_of_range df i H). reflexivity.
Qed.

(** X16.  [check_signal] raises exactly when the index is at least 5 and at
    or beyond the length of the dataframe; the exception is [IndexError]
    and the engine is left untouched.  Below 5, and without an index, it
    returns none before any row is read. *)
Theorem check_signal_index_error :
  forall self df i,
    ((5 <= i)%Z /\ (Z.of_nat (length df) <= i)%Z
     <-> exists e, snd (check_signal self df (Some i)) = Raise e)
    /\ ((5 <= i)%Z -> (Z.of_nat (length df) <= i)%Z ->
        check_signal self df (Some i) = (self, Raise IndexError))
    /\ ((i < 5)%Z -> check_signal self df (Some i) = (self, Ok None)).
Proof.
  intros self df i.
  pose proof (check_signal_below_five self df i) as Lo.
  pose proof (check_signal_beyond_end self df i) as Hi.
  split; [| split; assumption].
  split.
  - intros [H5 H]. exists IndexError. rewrite (Hi H5 H). reflexivity.
  - intros [e E].
    destruct (Z.lt_ge_cases i 5) as [L | G].
    + rewrite (Lo L) in E. discriminate E.
    + split; [exact G |].
      destruct (Z.lt_ge_cases i (Z.of_nat (length df))) as [L | G'];
        [| exact G'].
      destruct (check_signal_in_range self df i) as [c [p1 [p2 [_ [_ [_ R]]]]]];
        [lia |].
      rewrite R in E. discriminate E.
Qed.

Lemma check_signal_index_error_witness :
  check_signal engine0 df_day1 (Some 6%Z) = (engine0, Raise IndexError)
  /\ check_signal engine0 df_day1 (Some 4%Z) = (engine0, Ok None).
Proof.
  destruct (check_signal_index_error engine0 df_day1 6) as [_ [A _]].
  destruct (check_signal_index_error engine0 df_day1 4) as [_ [_ B]].
  split; [apply A; vm_compute; discriminate | apply B; reflexivity].
Defined.

(** X17.  The daily limits gate the detector.  At a valid index i >= 5, when
    no reset fires (no last-trade date is recorded, or it is the plain date
    of the current row) and either the daily trade count has reached the
    maximum or the daily P&L is below minus the loss-limit fraction of the
    capital, [check_signal] returns none and leaves the engine unchanged,
    whatever the rows show. *)
Theorem check_signal_daily_gate :
  forall self df i current,
    (5 <= i < Z.of_nat (length df))%Z ->
    iloc df i = Ok current ->
    last_trade_date self = None
    \/ last_trade_date self = Some (DateOnly (Row.name_day current)) ->
    (max_trades_per_day self <= daily_trade_count self)%Z
    \/ daily_pnl self < - daily_loss_limit self * capital self ->
    check_signal self df (Some i) = (self, Ok None).
Proof.
  intros self df i current Hi Hc Hd Hg.
  destruct (check_signal_in_range self df i Hi) as [c [p1 [p2 [Ec [_ [_ R]]]]]].
  rewrite Hc in Ec. injection Ec as Ec. subst c.
  assert (S : reset_daily_limits self current = self).
  { destruct Hd as [N | D].
    - unfold reset_daily_limits. rewrite N. reflexivity.
    - now apply reset_daily_limits_same_date. }
  rewrite R, S.
  replace (limit_reached self) with true; [reflexivity |].
  symmetry. unfold limit_reached. apply orb_true_iff.
  destruct Hg as [G | G].
  - left. apply Z.leb_le, G.
  - right. apply Qltb_lt, G.
Qed.

Lemma check_signal_daily_gate_witness :
  check_signal (set_daily_trade_count engine0 8) df_breakout (Some 5%Z)
  = (set_daily_trade_count engine0 8, Ok None)
  /\ snd (check_signal engine0 df_breakout (Some 5%Z)) <> Ok None.
Proof.
  split.
  - apply (check_signal_daily_gate (set_daily_trade_count engine0 8)
             df_breakout 5 (plain_row 1 4500 (23 # 2) 10 11)).
    + vm_compute. split; [discriminate | reflexivity].
    + reflexivity.
    + left. reflexivity.
    + left. vm_compute. discriminate.
  - vm_compute. discriminate.
Defined.

(** Breaks the conjunctions of decided tests of the context into
    propositions. *)
Ltac tests :=
  repeat match goal with
         | H : _ && _ = true |- _ =>
             apply andb_true_iff in H; destruct H
         | H : Qltb _ _ = true |- _ => apply Qltb_lt in H
         | H : negb _ = true |- _ => apply negb_true_iff in H
         end.

Lemma detect_pattern_sound (df : dataframe) (i : Z)
    (current prev prev2 : Row.t) (sig : Signal.t) :
  detect_pattern df i current prev prev2 = Some sig ->
  Signal.price sig = Row.close current
  /\ Signal.atr sig = Row.atr current
  /\ pattern_evidence current sig.
Proof.
  unfold detect_pattern, pattern_evidence. intro E.
  repeat match type of E with
         | context [if ?c then _ else _] => destruct c eqn:?
         end;
    try discriminate E; injection E as E; subst sig;
    (split; [reflexivity |]); (split; [reflexivity |]);
    eexists; eexists; (split; [reflexivity |]); (split; [reflexivity |]);
    cbn [Signal.type];
    try reflexivity;
    match goal with
    | H : bb_bounce_long _ = true |- _ =>
        unfold bb_bounce_long, ranging in H
    | H : bb_rejection_short _ = true |- _ =>
        unfold bb_rejection_short, ranging in H
    | H : breakout_long _ _ _ = true |- _ =>
        unfold breakout_long, volume_surge in H
    | H : breakdown_short _ _ _ = true |- _ =>
        unfold breakdown_short, volume_surge in H
    | H : momentum_long _ = true |- _ => unfold momentum_long in H
    | H : momentum_short _ = true |- _ => unfold momentum_short in H
    end;
    tests; repeat split; assumption.
Qed.

(** X18.  Every signal that [check_signal] returns is backed by the current
    row: the index is at least 5 and in range, the daily limits are not
    reached, the signal carries the close and the ATR of the row at the
    index, and its pattern tag fixes its confidence (trend pullback 0.7,
    band patterns 0.6, breakout and breakdown 0.8, momentum 0.5) and comes
    with the conditions of that pattern: no trend alignment and a band
    extreme for the band patterns, a volume ratio above 1.5 for breakout
    and breakdown, a volume ratio above 1.2 and a body above 70% of the
    range for momentum. *)
Theorem check_signal_sound :
  forall self df i self' sig,
    check_signal self df (Some i) = (self', Ok (Some sig)) ->
    exists current,
      (5 <= i < Z.of_nat (length df))%Z
      /\ iloc df i = Ok current
      /\ limit_reached self' = false
      /\ Signal.price sig = Row.close current
      /\ Signal.atr sig = Row.atr current
      /\ pattern_evidence current sig.
Proof.
  intros self df i self' sig E.
  destruct (Z.lt_ge_cases i 5) as [L | G].
  { rewrite (check_signal_below_five self df i L) in E. discriminate E. }
  destruct (Z.lt_ge_cases i (Z.of_nat (length df))) as [L | G'].
  2:{ rewrite (check_signal_beyond_end self df i G G') in E.
      discriminate E. }
  destruct (check_signal_in_range self df i (conj G L))
    as [c [p1 [p2 [Ec [_ [_ R]]]]]].
  rewrite R in E. injection E as E1 E2. subst self'.
  destruct (limit_reached _) eqn:Lim; [discriminate E2 |].
  destruct (detect_pattern_sound _ _ _ _ _ _ E2) as [A [B C]].
  exists c. repeat split; assumption.
Qed.

Lemma check_signal_sound_witness :
  exists current,
    iloc df_breakout 5 = Ok current
    /\ pattern_evidence current
         (Signal.mk Long 11 2 (Some breakout) (Some (8 # 10))).
Proof.
  destruct (check_signal_sound engine0 df_breakout 5 engine0
              (Signal.mk Long 11 2 (Some breakout) (Some (8 # 10))) eq_refl)
    as [cur [_ [A [_ [_ [_ B]]]]]].
  exists cur. split; assumption.
Defined.

(** X19.  On a row whose trend-context flags are the ones
    [calculate_indicators] computes, the long and the short variant of a
    pattern never match together, so which of the two is tested first makes
    no difference; the band patterns never match on a row with one of the
    flags set. *)
Theorem long_short_exclusive :
  forall df i current prev prev2,
    flags_as_computed current ->
    (trend_pullback_long current prev prev2
     && trend_pullback_short current prev prev2 = false)
    /\ bb_bounce_long current && bb_rejection_short current = false
    /\ breakout_long df i current && breakdown_short df i current = false
    /\ momentum_long current && momentum_short current = false
    /\ (Row.ema_alignment_bull current = true
        \/ Row.ema_alignment_bear current = true ->
        bb_bounce_long current = false
        /\ bb_rejection_short current = false).
Proof.
  intros df i current prev prev2 [Fb Fr].
  unfold Indicators.ema_alignment_bull in Fb.
  unfold Indicators.ema_alignment_bear in Fr.
  split; [| split; [| split; [| split; [| intro Hf; split]]]].
  - apply not_true_is_false. intro H. apply andb_true_iff in H.
    destruct H as [Hl Hs].
    unfold trend_pullback_long in Hl. unfold trend_pullback_short in Hs.
    rewrite Fb in Hl. rewrite Fr in Hs.
    apply andb_true_iff in Hl. destruct Hl as [Hl _].
    apply andb_true_iff in Hl. destruct Hl as [Hl _].
    apply andb_true_iff in Hs. destruct Hs as [Hs _].
    apply andb_true_iff in Hs. destruct Hs as [Hs _].
    apply orb_true_iff in Hl. apply orb_true_iff in Hs.
    destruct Hl as [Hl | Hl], Hs as [Hs | Hs]; tests; lra.
  - apply not_true_is_false. intro H.
    unfold bb_bounce_long, bb_rejection_short in H. tests. lra.
  - apply not_true_is_false. intro H.
    unfold breakout_long, breakdown_short in H. tests. lra.
  - apply not_true_is_false. intro H.
    unfold momentum_long, momentum_short in H. tests. lra.
  - apply not_true_is_false. intro H.
    unfold bb_bounce_long, ranging in H. tests.
    destruct Hf as [B | B]; congruence.
  - apply not_true_is_false. intro H.
    unfold bb_rejection_short, ranging in H. tests.
    destruct Hf as [B | B]; congruence.
Qed.

Lemma long_short_exclusive_witness :
  flags_as_computed (plain_row 1 4500 (23 # 2) 10 11)
  /\ breakout_long df_breakout 5 (plain_row 1 4500 (23 # 2) 10 11) = true
  /\ breakdown_short df_breakout 5 (plain_row 1 4500 (23 # 2) 10 11) = false.
Proof.
  assert (F : flags_as_computed (plain_row 1 4500 (23 # 2) 10 11))
    by (split; reflexivity).
  split; [exact F |].
  destruct (long_short_exclusive df_breakout 5
              (plain_row 1 4500 (23 # 2) 10 11)
              (plain_row 1 3600 10 9 (19 # 2))
              (plain_row 1 2700 10 9 (19 # 2)) F) as [_ [_ [H _]]].
  assert (B : breakout_long df_breakout 5 (plain_row 1 4500 (23 # 2) 10 11)
              = true) by (vm_compute; reflexivity).
  split; [exact B |]. rewrite B in H. exact H.
Defined.

(** ** IndicatorEngine: the candle-shape columns *)

(** X20.  For a candle whose open and close lie between its low and its
    high, the shape columns of [calculate_indicators] are non-negative, and
    body, upper wick and lower wick add up to the range; so the body never
    exceeds the range.  The two trend-alignment flags are never set
    together. *)
Theorem candle_shape_partition :
  forall open_ high_ low_ close_,
    low_ <= open_ -> open_ <= high_ ->
    low_ <= close_ -> close_ <= high_ ->
    0 <= Indicators.body open_ close_
    /\ 0 <= Indicators.upper_wick open_ high_ close_
    /\ 0 <= Indicators.lower_wick open_ low_ close_
    /\ Indicators.body open_ close_
       + Indicators.upper_wick open_ high_ close_
       + Indicators.lower_wick open_ low_ close_
       == Indicators.range high_ low_
    /\ Indicators.body open_ close_ <= Indicators.range high_ low_
    /\ forall s m l,
         Indicators.ema_alignment_bull s m l
         && Indicators.ema_alignment_bear s m l = false.
Proof.
  intros o h l c Hlo Hoh Hlc Hch.
  unfold Indicators.body, Indicators.upper_wick, Indicators.lower_wick,
    Indicators.range, Indicators.row_max, Indicators.row_min.
  assert (S : (Qltb o c = true /\ Qltb c o = false /\ Qabs (c - o) == c - o)
              \/ (Qltb o c = false /\ Qabs (c - o) == o - c
                  /\ (Qltb c o = true \/ (Qltb c o = false /\ c == o)))).
  { destruct (Qltb o c) eqn:A.
    - left. split; [reflexivity |]. apply Qltb_lt in A. split.
      + apply Qltb_ge. lra.
      + apply Qabs_pos. lra.
    - right. split; [reflexivity |]. apply Qltb_ge in A. split.
      + setoid_replace (o - c) with (- (c - o)) by ring.
        apply Qabs_neg. lra.
      + destruct (Qltb c o) eqn:B; [left; reflexivity |].
        right. split; [reflexivity |]. apply Qltb_ge in B. lra. }
  split; [apply Qabs_nonneg |].
  assert (Fl : forall s m l0,
             Indicators.ema_alignment_bull s m l0
             && Indicators.ema_alignment_bear s m l0 = false).
  { intros s m l0. apply not_true_is_false. intro H.
    unfold Indicators.ema_alignment_bull, Indicators.ema_alignment_bear in H.
    tests. lra. }
  destruct S as [[A [B E]] | [A [E [B | [B C]]]]]; rewrite A, B, E;
    repeat split; try lra; exact Fl.
Qed.

Lemma candle_shape_partition_witness :
  Indicators.body 100 104 + Indicators.upper_wick 100 105 104
  + Indicators.lower_wick 100 99 104 == Indicators.range 105 99.
Proof.
  destruct (candle_shape_partition 100 105 99 104) as [_ [_ [_ [H _]]]];
    try (vm_compute; discriminate).
  exact H.
Defined.

(** * The drivers *)

Lemma perform_all_app (self : Engine) (cs1 cs2 : list call) :
  perform_all (perform_all self cs1) cs2 = perform_all self (cs1 ++ cs2).
Proof. unfold perform_all. symmetry. apply fold_left_app. Qed.



(** The exit check acts on the engine through [should_exit_position] and
    [close_position] only. *)
Lemma check_exit_performs (self : Engine) (p a : Q) (t : timestamp) :
  fst (check_exit self p a t) = self
  \/ fst (check_exit self p a t) = perform self (ShouldExitPosition p (Some a))
  \/ exists r,
       fst (check_exit self p a t)
       = perform (perform self (ShouldExitPosition p (Some a)))
           (ClosePosition p t r).
Proof.
  unfold check_exit.
  destruct (position self); [| left; reflexivity].
  cbn [perform].
  destruct (should_exit_position self p (Some a)) as [s1 [[b r] | e]];
    cbn [fst]; [| right; left; reflexivity].
  destruct b; [| right; left; reflexivity].
  destruct r as [r |]; [| right; left; reflexivity].
  right. right. exists r.
  destruct (close_position s1 p t r) as [s2 [o | e]]; reflexivity.
Qed.

(** The entry check acts on the engine through [check_signal] and
    [open_position] only. *)
Lemma check_entry_performs (self : Engine) (df : dataframe) (i : option Z)
    (t : timestamp) :
  fst (check_entry self df i t) = self
  \/ fst (check_entry self df i t) = perform self (CheckSignal df i)
  \/ exists s,
       fst (check_entry self df i t)
       = perform (perform self (CheckSignal df i)) (OpenPosition s t).
Proof.
  unfold check_entry.
  destruct (position self); [left; reflexivity |].
  cbn [perform].
  destruct (check_signal self df i) as [s1 [[sig |] | e]]; cbn [fst];
    [| right; left; reflexivity | right; left; reflexivity].
  right. right. exists sig.
  destruct (open_position s1 sig t) as [s2 [o | e]]; reflexivity.
Qed.

Lemma as_perform_all (self : Engine) :
  (forall c, perform self c = perform_all self [c])
  /\ (forall c1 c2,
        perform (perform self c1) c2 = perform_all self [c1; c2])
  /\ self = perform_all self [].
Proof. repeat split. Qed.

Lemma check_exit_calls (self : Engine) (p a : Q) (t : timestamp) :
  exists cs, fst (check_exit self p a t) = perform_all self cs.
Proof.
  destruct (check_exit_performs self p a t) as [E | [E | [r E]]];
    rewrite E;
    [ exists []
    | exists [ShouldExitPosition p (Some a)]
    | exists [ShouldExitPosition p (Some a); ClosePosition p t r] ];
    reflexivity.
Qed.

Lemma check_entry_calls (self : Engine) (df : dataframe) (i : option Z)
    (t : timestamp) :
  exists cs, fst (check_entry self df i t) = perform_all self cs.
Proof.
  destruct (check_entry_performs self df i t) as [E | [E | [s E]]];
    rewrite E;
    [ exists []
    | exists [CheckSignal df i]
    | exists [CheckSignal df i; OpenPosition s t] ];
    reflexivity.
Qed.

(** ** The live traders *)

Lemma check_entry_without_index (self : Engine) (df : dataframe)
    (t : timestamp) :
  check_entry self df None t = (self, Ok tt).
Proof.
  unfold check_entry. destruct (position self); reflexivity.
Qed.

Lemma close_position_keeps_count (self : Engine) (p : Q) (t : timestamp)
    (r : reason) :
  daily_trade_count (fst (close_position self p t r))
  = daily_trade_count self.
Proof.
  unfold close_position. destruct (position self); [| reflexivity].
  destruct (pydiv _ _); reflexivity.
Qed.

Lemma close_position_never_opens (self : Engine) (p : Q) (t : timestamp)
    (r : reason) :
  position self = None ->
  position (fst (close_position self p t r)) = None.
Proof.
  intro P. rewrite (close_position_flat self p t r P). exact P.
Qed.

Lemma close_position_log_length (self : Engine) (p : Q) (t : timestamp)
    (r : reason) :
  (length (trades self) <= length (trades (fst (close_position self p t r)))
   <= length (trades self) + 1)%nat.
Proof.
  unfold close_position. destruct (position self); [| cbn; lia].
  destruct (pydiv _ _); cbn [fst trades set_capital set_position set_trades
                             set_daily_pnl]; rewrite ?length_app; cbn; lia.
Qed.

(** The exit check never opens a position, and leaves the daily trade count
    and the last-trade date alone. *)
Lemma check_exit_keeps (self : Engine) (p a : Q) (t : timestamp) :
  let self' := fst (check_exit self p a t) in
  daily_trade_count self' = daily_trade_count self
  /\ last_trade_date self' = last_trade_date self
  /\ (position self = None -> self' = self)
  /\ (length (trades self) <= length (trades self')
      <= length (trades self) + 1)%nat.
Proof.
  intro self'. subst self'.
  assert (Flat : position self = None -> fst (check_exit self p a t) = self).
  { intro P. unfold check_exit. rewrite P. reflexivity. }
  destruct (should_exit_position_keeps self p (Some a))
    as [_ [_ [T [_ [C [D _]]]]]].
  destruct (check_exit_performs self p a t) as [E | [E | [r E]]];
    cbn [perform] in E; rewrite E.
  - split; [reflexivity |]. split; [reflexivity |].
    split; [reflexivity | lia].
  - rewrite C, D, T. split; [reflexivity |]. split; [reflexivity |].
    split; [| lia]. intro P. rewrite <- E. now apply Flat.
  - rewrite close_position_keeps_count, close_position_keeps_trade_date.
    rewrite C, D.
    pose proof (close_position_log_length
                  (fst (should_exit_position self p (Some a))) p t r) as L.
    rewrite T in L.
    split; [reflexivity |]. split; [reflexivity |].
    split; [| lia]. intro P. rewrite <- E. now apply Flat.
Qed.

(** X21.  The live traders never open a position: they call [check_signal]
    without an index, which always returns none.  One iteration of the
    polling loop leaves a flat engine exactly as it is, whatever the
    dataframe shows, and so does every sequence of iterations; in any state
    an iteration leaves the daily trade count and the last-trade date
    untouched and can only keep or close the position held. *)
Theorem live_trader_never_opens :
  forall self df,
    let self' := fst (PaperTradingBot.iteration self df) in
    (position self = None -> self' = self)
    /\ (position self = None ->
        forall dfs, PaperTradingBot.iterations self dfs = self)
    /\ daily_trade_count self' = daily_trade_count self
    /\ last_trade_date self' = last_trade_date self
    /\ (length (trades self) <= length (trades self')
        <= length (trades self) + 1)%nat.
Proof.
  intros self df self'. subst self'.
  assert (One : forall s d,
             fst (PaperTradingBot.iteration s d)
             = s \/ exists r,
                 iloc_last d = Ok r
                 /\ fst (PaperTradingBot.iteration s d)
                    = fst (check_exit s (Row.close r) (Row.atr r)
                             (Row.name r))).
  { intros s d. unfold PaperTradingBot.iteration.
    destruct (iloc_last d) as [r | e]; [| left; reflexivity].
    right. exists r. split; [reflexivity |].
    destruct (check_exit s _ _ _) as [s1 [u | e]]; [| reflexivity].
    rewrite check_entry_without_index. reflexivity. }
  assert (Flat : forall s d,
             position s = None -> fst (PaperTradingBot.iteration s d) = s).
  { intros s d P. destruct (One s d) as [E | [r [_ E]]]; [exact E |].
    rewrite E. destruct (check_exit_keeps s (Row.close r) (Row.atr r)
                           (Row.name r)) as [_ [_ [F _]]].
    now apply F. }
  split; [now apply Flat |]. split.
  - intros P dfs. unfold PaperTradingBot.iterations.
    induction dfs as [| d dfs IH]; [reflexivity |].
    cbn [fold_left]. rewrite (Flat self d P). exact IH.
  - destruct (One self df) as [E | [r [_ E]]]; rewrite E.
    + split; [reflexivity |]. split; [reflexivity | lia].
    + destruct (check_exit_keeps self (Row.close r) (Row.atr r)
                  (Row.name r)) as [C [D [_ L]]].
      split; [exact C |]. split; [exact D | exact L].
Qed.

Lemma live_trader_never_opens_witness :
  snd (check_signal engine0 df_breakout (Some 5%Z)) <> Ok None
  /\ PaperTradingBot.iteration engine0 df_breakout = (engine0, Ok tt)
  /\ PaperTradingBot.iterations engine0 [df_breakout; df_spike; df_breakout]
     = engine0.
Proof.
  split; [vm_compute; discriminate |].
  destruct (live_trader_never_opens engine0 df_breakout) as [A [B _]].
  split.
  - rewrite (surjective_pairing (PaperTradingBot.iteration _ _)).
    rewrite (A eq_refl). reflexivity.
  - apply (B eq_refl).
Defined.

(** ** The backtester *)

Lemma step_calls (bt : CryptoBacktester.t) (df : dataframe) (i : nat) :
  exists cs,
    CryptoBacktester.engine (fst (CryptoBacktester.step bt df i))
    = perform_all (CryptoBacktester.engine bt) cs.
Proof.
  unfold CryptoBacktester.step.
  destruct (iloc df (Z.of_nat i)) as [cur | e]; [| exists []; reflexivity].
  destruct (check_exit_calls (CryptoBacktester.engine bt) (Row.close cur)
              (Row.atr cur) (Row.name cur)) as [cs1 E1].
  destruct (check_exit _ _ _ _) as [s1 [u | e]]; cbn [fst] in E1;
    [| exists cs1; exact E1].
  destruct (check_entry_calls s1 df (Some (Z.of_nat i)) (Row.name cur))
    as [cs2 E2].
  destruct (check_entry _ _ _ _) as [s2 [u' | e]]; cbn [fst] in E2;
    exists (cs1 ++ cs2); cbn [fst CryptoBacktester.engine];
    rewrite E2, E1; apply perform_all_app.
Qed.

Lemma loop_calls (df : dataframe) (indices : list nat) :
  forall bt,
    exists cs,
      CryptoBacktester.engine (fst (CryptoBacktester.loop bt df indices))
      = perform_all (CryptoBacktester.engine bt) cs.
Proof.
  induction indices as [| i rest IH]; intro bt; cbn [CryptoBacktester.loop].
  - exists []. reflexivity.
  - destruct (step_calls bt df i) as [cs1 E1].
    destruct (CryptoBacktester.step bt df i) as [bt1 [u | e]];
      cbn [fst] in E1; [| exists cs1; exact E1].
    destruct (IH bt1) as [cs2 E2].
    exists (cs1 ++ cs2). rewrite E2, E1. apply perform_all_app.
Qed.

(** The backtest acts on the engine through the four engine methods only. *)
Lemma run_calls (bt : CryptoBacktester.t) (df : dataframe) :
  exists cs,
    CryptoBacktester.engine (fst (CryptoBacktester.run bt df))
    = perform_all (CryptoBacktester.engine bt) cs.
Proof.
  unfold CryptoBacktester.run.
  destruct (loop_calls df (seq 0 (length df)) bt) as [cs1 E1].
  destruct (CryptoBacktester.loop bt df _) as [bt1 [u | e]];
    cbn [fst] in E1; [| exists cs1; exact E1].
  destruct (position (CryptoBacktester.engine bt1));
    [| exists cs1; exact E1].
  destruct (iloc_last df) as [lr | e]; [| exists cs1; exact E1].
  exists (cs1 ++ [ClosePosition (Row.close lr) (Row.name lr) END_OF_DATA]).
  rewrite <- perform_all_app, <- E1.
  unfold perform_all at 1. cbn [fold_left perform].
  destruct (close_position _ _ _ _) as [s2 [o | e]]; reflexivity.
Qed.

(** X22.  A backtest keeps the books balanced.  From a backtester whose
    capital is its initial capital plus the P&L of its logged trades (a
    fresh one is), [run] ends, whether it returns or raises, with capital =
    initial capital + sum of the realized P&L in the trade log, on every
    dataframe. *)
Theorem backtest_keeps_books :
  forall bt df,
    books_balanced (CryptoBacktester.engine bt) ->
    position_funded (CryptoBacktester.engine bt) ->
    let bt' := fst (CryptoBacktester.run bt df) in
    books_balanced (CryptoBacktester.engine bt')
    /\ initial_capital (CryptoBacktester.engine bt')
       = initial_capital (CryptoBacktester.engine bt).
Proof.
  intros bt df B F bt'. subst bt'.
  destruct (run_calls bt df) as [cs E]. rewrite E.
  destruct (perform_all_keeps_ledger cs _ B F) as [B' [_ I]].
  split; assumption.
Qed.

Lemma backtest_keeps_books_witness :
  books_balanced
    (CryptoBacktester.engine
       (fst (CryptoBacktester.run (CryptoBacktester.mk engine0 [])
               df_breakout))).
Proof.
  apply (backtest_keeps_books (CryptoBacktester.mk engine0 []) df_breakout).
  - vm_compute. reflexivity.
  - intros pos E. discriminate E.
Defined.







(** ** Equity analytics *)

Lemma drawdown_point (e p : Q) :
  0 < e -> e <= p -> - 100 < (e - p) / p * 100 /\ (e - p) / p * 100 <= 0.
Proof.
  intros He Hp. assert (P : 0 < p) by lra.
  assert (U : (e - p) / p <= 0) by (apply Qle_shift_div_r; [exact P | lra]).
  assert (L : - 1 < (e - p) / p) by (apply Qlt_shift_div_l; [exact P | lra]).
  split; lra.
Qed.

Lemma drawdown_from_bounds (xs : list Q) :
  forall m,
    0 < m ->
    (forall x, In x xs -> 0 < x) ->
    Forall (fun d => - 100 < d /\ d <= 0)
      (map (fun ep => (fst ep - snd ep) / snd ep * 100)
         (combine xs (cummax_from m xs))).
Proof.
  induction xs as [| x rest IH]; intros m Hm Hx; cbn [cummax_from combine map].
  - constructor.
  - assert (X : 0 < x) by (apply Hx; left; reflexivity).
    constructor.
    + cbn [fst snd]. apply drawdown_point; [exact X |].
      destruct (Qltb m x) eqn:T; [apply Qle_refl | apply Qltb_ge, T].
    + apply IH.
      * destruct (Qltb m x); assumption.
      * intros y Hy. apply Hx. right. exact Hy.
Qed.

(** X24.  For an equity curve of positive values the drawdown column has one
    entry per equity point, starts at 0, and every entry is at most 0 and
    above -100; so the maximum drawdown reported, the minimum of the column,
    is in that range too. *)
Theorem drawdown_bounds :
  forall equity,
    (forall e, In e equity -> 0 < e) ->
    length (drawdown equity) = length equity
    /\ Forall (fun d => - 100 < d /\ d <= 0) (drawdown equity)
    /\ (forall d, nth_error (drawdown equity) 0 = Some d -> d == 0)
    /\ (forall m, max_drawdown equity = Some m -> - 100 < m /\ m <= 0).
Proof.
  intros equity Hpos.
  assert (F : Forall (fun d => - 100 < d /\ d <= 0) (drawdown equity)).
  { unfold drawdown. destruct equity as [| x rest]; [constructor |].
    assert (X : 0 < x) by (apply Hpos; left; reflexivity).
    cbn [cummax combine map]. constructor.
    - cbn [fst snd]. apply drawdown_point; [exact X | apply Qle_refl].
    - apply drawdown_from_bounds; [exact X |].
      intros y Hy. apply Hpos. right. exact Hy. }
  split; [| split; [exact F | split]].
  - unfold drawdown. rewrite length_map, length_combine.
    assert (L : forall xs m, length (cummax_from m xs) = length xs)
      by (induction xs as [| y ys IH]; intro m; cbn; [| rewrite IH];
          reflexivity).
    destruct equity as [| x rest]; [reflexivity |].
    cbn [cummax length]. rewrite L. lia.
  - intros d H. unfold drawdown in H.
    destruct equity as [| x rest]; [discriminate H |].
    cbn in H. injection H as H. subst d.
    assert (X : 0 < x) by (apply Hpos; left; reflexivity).
    field. intro Z. rewrite Z in X. apply (Qlt_irrefl _ X).
  - intros m H. unfold max_drawdown in H.
    apply series_min_spec in H. destruct H as [I _].
    rewrite Forall_forall in F. apply (F m I).
Qed.

Lemma drawdown_bounds_witness :
  exists m,
    max_drawdown [10000; 10600; 10070; 10900] = Some m
    /\ - 100 < m /\ m <= 0 /\ m == - 5.
Proof.
  destruct (drawdown_bounds [10000; 10600; 10070; 10900]) as [_ [_ [_ H]]].
  - intros e He. cbn [In] in He.
    repeat (destruct He as [He | He]; [subst e; reflexivity |]).
    contradiction.
  - eexists. split; [reflexivity |].
    destruct (H _ eq_refl) as [A B].
    split; [exact A |]. split; [exact B |]. vm_compute. reflexivity.
Defined.

Lemma fold_plus_acc (xs : list Q) :
  forall a, fold_left Qplus xs a == a + series_sum xs.
Proof.
  unfold series_sum. induction xs as [| x rest IH]; intro a; cbn [fold_left].
  - ring.
  - rewrite (IH (a + x)), (IH (0 + x)). ring.
Qed.

Lemma series_sum_cons (x : Q) (xs : list Q) :
  series_sum (x :: xs) == x + series_sum xs.
Proof.
  unfold series_sum at 1. cbn [fold_left]. rewrite fold_plus_acc. ring.
Qed.

Lemma cumsum_from_nth (xs : list Q) :
  forall acc k v,
    nth_error (cumsum_from acc xs) k = Some v ->
    v == acc + series_sum (firstn (S k) xs).
Proof.
  induction xs as [| x rest IH]; intros acc k v H.
  - destruct k; discriminate H.
  - destruct k as [| k]; cbn [cumsum_from nth_error] in H.
    + injection H as H. subst v. cbn [firstn].
      rewrite series_sum_cons. unfold series_sum. cbn. ring.
    + rewrite (IH _ _ _ H).
      change (firstn (S (S k)) (x :: rest)) with (x :: firstn (S k) rest).
      rewrite series_sum_cons. ring.
Qed.

Lemma cumsum_nth (xs : list Q) (k : nat) (v : Q) :
  nth_error (cumsum xs) k = Some v ->
  v == series_sum (firstn (S k) xs).
Proof.
  destruct xs as [| x rest]; [destruct k; discriminate |].
  destruct k as [| k]; cbn [cumsum nth_error]; intro H.
  - injection H as H. subst v. cbn [firstn].
    rewrite series_sum_cons. unfold series_sum. cbn. ring.
  - rewrite (cumsum_from_nth _ _ _ _ H).
    change (firstn (S (S k)) (x :: rest)) with (x :: firstn (S k) rest).
    rewrite series_sum_cons. reflexivity.
Qed.

Lemma cumsum_length (xs : list Q) : length (cumsum xs) = length xs.
Proof.
  assert (L : forall ys acc, length (cumsum_from acc ys) = length ys)
    by (induction ys as [| y ys IH]; intro acc; cbn; [| rewrite IH];
        reflexivity).
  destruct xs as [| x rest]; [reflexivity |]. cbn. now rewrite L.
Qed.

Lemma combine_fst_snd {A B : Type} (xs : list A) :
  forall ys : list B,
    length xs = length ys ->
    map fst (combine xs ys) = xs /\ map snd (combine xs ys) = ys.
Proof.
  induction xs as [| x xs IH]; intros [| y ys] H; try discriminate H.
  - split; reflexivity.
  - cbn [combine map fst snd]. injection H as H.
    destruct (IH ys H) as [A1 A2]. rewrite A1, A2. split; reflexivity.
Qed.

(** X25.  [calculate_cumulative_pnl] returns one point per logged trade, in
    log order and stamped with the exit time of its trade; the value of
    point k is the sum of the P&L of the first k + 1 trades.  When the
    books are balanced, the value of the last point is the capital minus
    the initial capital. *)
Theorem cumulative_pnl_points :
  forall self,
    let points := calculate_cumulative_pnl self in
    map fst points = map Trade.exit_time (trades self)
    /\ (forall k v,
          nth_error (map snd points) k = Some v ->
          v == series_sum (firstn (S k) (map Trade.pnl (trades self))))
    /\ (books_balanced self ->
        forall v,
          nth_error (map snd points) (length (trades self) - 1) = Some v ->
          v == capital self - initial_capital self).
Proof.
  intros self points. subst points. unfold calculate_cumulative_pnl.
  assert (M : map snd
                (combine (map Trade.exit_time (trades self))
                   (cumsum (map Trade.pnl (trades self))))
              = cumsum (map Trade.pnl (trades self))).
  { apply combine_fst_snd.
    rewrite cumsum_length, !length_map. reflexivity. }
  assert (Fm : map fst
                 (combine (map Trade.exit_time (trades self))
                    (cumsum (map Trade.pnl (trades self))))
               = map Trade.exit_time (trades self)).
  { apply combine_fst_snd.
    rewrite cumsum_length, !length_map. reflexivity. }
  destruct (trades self) as [| t ts] eqn:T.
  - split; [reflexivity |]. split.
    + intros k v H. destruct k; discriminate H.
    + intros _ v H. discriminate H.
  - rewrite <- T in *. split; [exact Fm |]. rewrite M. split.
    + intros k v H. now apply cumsum_nth.
    + intros B v H. rewrite (cumsum_nth _ _ _ H).
      unfold books_balanced in B. rewrite B.
      replace (S (length (trades self) - 1)) with
        (length (map Trade.pnl (trades self)))
        by (rewrite length_map, T; cbn [length]; lia).
      rewrite firstn_all. ring.
Qed.

Lemma cumulative_pnl_points_witness :
  books_balanced engine_after_trade
  /\ exists v,
       nth_error (map snd (calculate_cumulative_pnl engine_after_trade)) 0
       = Some v
       /\ v == capital engine_after_trade - initial_capital engine_after_trade
       /\ v == 600.
Proof.
  assert (B : books_balanced engine_after_trade) by (vm_compute; reflexivity).
  split; [exact B |].
  destruct (cumulative_pnl_points engine_after_trade) as [_ [_ H]].
  eexists. split; [reflexivity |]. split.
  - apply (H B). reflexivity.
  - vm_compute. reflexivity.
Defined.

(** ** PerformanceAnalyzer, continued *)

(** The summary of a non-empty log, field by field. *)
Lemma analyze_performance_record (self : Engine) :
  trades self <> [] ->
  ~ initial_capital self == 0 ->
  let ts := trades self in
  let total := Z.of_nat (length ts) in
  let winning := Z.of_nat (length (winning_pnl ts)) in
  let win_rate := inject_Z winning / inject_Z total * 100 in
  let avg_win :=
    if (0 <? winning)%Z then series_mean (winning_pnl ts) else 0 in
  let avg_loss :=
    if (0 <? total - winning)%Z
    then Qabs (series_mean (losing_pnl ts)) else 0 in
  exists pf,
    analyze_performance self
    = Ok (Some
            (Performance.mk total winning (total - winning) win_rate pf
               (series_sum (map Trade.pnl ts)) avg_win avg_loss
               (win_rate / 100 * avg_win - (1 - win_rate / 100) * avg_loss)
               (fold_left Z.max (loss_streak 0 (map Trade.pnl ts)) 0%Z)
               ((capital self - initial_capital self)
                / initial_capital self * 100)))
    /\ pf = if Qltb 0 (Qabs (series_sum (losing_pnl ts)))
            then Fin (series_sum (winning_pnl ts)
                      / Qabs (series_sum (losing_pnl ts)))
            else PosInf.
Proof.
  intros NE NZ ts total winning win_rate avg_win avg_loss.
  subst ts total winning win_rate avg_win avg_loss.
  unfold analyze_performance.
  destruct (trades self) as [| t ts] eqn:T; [congruence |].
  rewrite (pydiv_ok _ _ (inject_Z_length_nonzero t ts)). cbn [bind].
  rewrite (pydiv_ok _ _ NZ).
  destruct (Qltb 0 (Qabs (series_sum (losing_pnl (t :: ts))))) eqn:L.
  - apply Qltb_lt in L.
    rewrite pydiv_ok by (intro E; rewrite E in L; apply (Qlt_irrefl _ L)).
    cbn [bind]. eexists. split; reflexivity.
  - cbn [bind]. eexists. split; reflexivity.
Qed.

Lemma series_sum_split (xs : list Q) :
  series_sum xs
  == series_sum (filter (fun p => Qltb 0 p) xs)
     + series_sum (filter (fun p => Qleb p 0) xs).
Proof.
  induction xs as [| x rest IH].
  - unfold series_sum. cbn. ring.
  - cbn [filter]. unfold Qltb, Qleb in *.
    destruct (Qle_bool x 0); cbn [negb]; rewrite !series_sum_cons, IH; ring.
Qed.

Lemma series_sum_nonpositive (xs : list Q) :
  series_sum (filter (fun p => Qleb p 0) xs) <= 0.
Proof.
  induction xs as [| x rest IH].
  - unfold series_sum. cbn. apply Qle_refl.
  - cbn [filter]. destruct (Qleb x 0) eqn:E; [| exact IH].
    apply Qleb_le in E. rewrite series_sum_cons. lra.
Qed.

Lemma series_sum_positive (xs : list Q) :
  0 <= series_sum (filter (fun p => Qltb 0 p) xs).
Proof.
  induction xs as [| x rest IH].
  - unfold series_sum. cbn. apply Qle_refl.
  - cbn [filter]. destruct (Qltb 0 x) eqn:E; [| exact IH].
    apply Qltb_lt in E. rewrite series_sum_cons. lra.
Qed.

Lemma fold_max_bounds (xs : list Z) :
  forall acc b,
    (acc <= b)%Z -> (forall x, In x xs -> (x <= b)%Z) ->
    (acc <= fold_left Z.max xs acc <= b)%Z.
Proof.
  induction xs as [| x rest IH]; intros acc b Ha Hx; cbn [fold_left].
  - lia.
  - assert (Xb : (x <= b)%Z) by (apply Hx; left; reflexivity).
    destruct (IH (Z.max acc x) b) as [L U]; [lia | |].
    + intros y Hy. apply Hx. right. exact Hy.
    + lia.
Qed.

Lemma loss_streak_bound (pnls : list Q) :
  forall run x,
    (0 <= run)%Z ->
    In x (loss_streak run pnls) ->
    (0 <= x
     <= run + Z.of_nat (length (filter (fun p => Qleb p 0) pnls)))%Z.
Proof.
  induction pnls as [| p rest IH]; intros run x Hr Hx;
    cbn [loss_streak] in Hx; [contradiction |].
  cbn [filter]. destruct (Qleb p 0).
  - cbn [length]. destruct Hx as [E | Hx]; [subst x; lia |].
    assert (R : (0 <= run + 1)%Z) by lia.
    specialize (IH (run + 1)%Z x R Hx). lia.
  - destruct Hx as [E | Hx]; [subst x; lia |].
    specialize (IH 0%Z x (Z.le_refl 0) Hx). lia.
Qed.

(** X26.  The summary of a non-empty log is consistent: total = winning +
    losing trades with both counts non-negative; the win rate is between 0
    and 100; the net profit is the gross profit (sum of the positive P&L)
    minus the gross loss (absolute value of the sum of the P&L <= 0); the
    longest losing streak is between 0 and the number of losing trades. *)
Theorem performance_summary_consistent :
  forall self,
    trades self <> [] ->
    ~ initial_capital self == 0 ->
    exists perf,
      analyze_performance self = Ok (Some perf)
      /\ Performance.total_trades perf = Z.of_nat (length (trades self))
      /\ (Performance.total_trades perf
          = Performance.winning_trades perf + Performance.losing_trades perf)%Z
      /\ (0 <= Performance.winning_trades perf)%Z
      /\ (0 <= Performance.losing_trades perf)%Z
      /\ 0 <= Performance.win_rate perf
      /\ Performance.win_rate perf <= 100
      /\ Performance.net_profit perf
         == series_sum (winning_pnl (trades self))
            - Qabs (series_sum (losing_pnl (trades self)))
      /\ (0 <= Performance.max_consecutive_losses perf
          <= Performance.losing_trades perf)%Z.
Proof.
  intros self NE NZ.
  destruct (analyze_performance_record self NE NZ) as [pf [E _]].
  eexists. split; [exact E |].
  cbn [Performance.total_trades Performance.winning_trades
       Performance.losing_trades Performance.win_rate
       Performance.net_profit Performance.max_consecutive_losses].
  pose proof (losing_count (trades self)) as LC.
  assert (W : (0 <= Z.of_nat (length (winning_pnl (trades self)))
               <= Z.of_nat (length (trades self)))%Z) by lia.
  assert (Tp : (0 < Z.of_nat (length (trades self)))%Z).
  { destruct (trades self); [congruence | cbn [length]; lia]. }
  assert (Tq : 0 < inject_Z (Z.of_nat (length (trades self)))).
  { unfold Qlt. cbn [Qnum Qden inject_Z]. lia. }
  assert (R0 : 0 <= inject_Z (Z.of_nat (length (winning_pnl (trades self))))
                    / inject_Z (Z.of_nat (length (trades self)))).
  { apply Qle_shift_div_l; [exact Tq |]. rewrite Qmult_0_l.
    unfold Qle. cbn [Qnum Qden inject_Z]. lia. }
  assert (R1 : inject_Z (Z.of_nat (length (winning_pnl (trades self))))
               / inject_Z (Z.of_nat (length (trades self))) <= 1).
  { apply Qle_shift_div_r; [exact Tq |]. rewrite Qmult_1_l.
    unfold Qle. cbn [Qnum Qden inject_Z]. lia. }
  split; [reflexivity |]. split; [lia |]. split; [lia |]. split; [lia |].
  split; [lra |]. split; [lra |]. split.
  - rewrite (series_sum_split (map Trade.pnl (trades self))).
    unfold winning_pnl, losing_pnl.
    rewrite (Qabs_neg _ (series_sum_nonpositive _)). ring.
  - rewrite LC.
    rewrite <- (filter_map_length (fun p => Qleb p 0) Trade.pnl).
    apply fold_max_bounds.
    + lia.
    + intros x Hx.
      destruct (loss_streak_bound _ 0%Z x (Z.le_refl 0) Hx). lia.
Qed.

Lemma performance_summary_consistent_witness :
  exists perf,
    analyze_performance engine_two_trades = Ok (Some perf)
    /\ Performance.total_trades perf = 2%Z
    /\ Performance.net_profit perf == 0.
Proof.
  destruct (performance_summary_consistent engine_two_trades)
    as [perf [E [T [_ [_ [_ [_ [_ [N _]]]]]]]]].
  - discriminate.
  - vm_compute. discriminate.
  - exists perf. split; [exact E |]. split; [exact T |].
    rewrite N. vm_compute. reflexivity.
Defined.

Lemma pnl_counts (ts : list Trade.t) :
  (length (winning_pnl ts) + length (losing_pnl ts) = length ts)%nat.
Proof.
  unfold winning_pnl, losing_pnl.
  pose proof (filter_complement_length (fun p => Qltb 0 p)
                (map Trade.pnl ts)) as H.
  cbv beta in H. rewrite length_map in H.
  assert (E : filter (fun p => negb (Qltb 0 p)) (map Trade.pnl ts)
              = filter (fun p => Qleb p 0) (map Trade.pnl ts)).
  { apply filter_ext. intro p. unfold Qltb, Qleb. apply negb_involutive. }
  rewrite E in H. exact H.
Qed.

Lemma inject_nat_pos (n : nat) : 0 < inject_Z (Z.of_nat (S n)).
Proof. unfold Qlt. cbn [Qnum Qden inject_Z]. lia. Qed.

Lemma inject_nat_plus (n m : nat) :
  inject_Z (Z.of_nat (n + m)) == inject_Z (Z.of_nat n) + inject_Z (Z.of_nat m).
Proof. rewrite Nat2Z.inj_add, inject_Z_plus. reflexivity. Qed.

(** X27.  The expectancy reported for a non-empty log, winRate x avgWin -
    (1 - winRate) x avgLoss, is the mean P&L per trade: the net profit
    divided by the number of trades. *)
Theorem expectancy_is_mean_pnl :
  forall self,
    trades self <> [] ->
    ~ initial_capital self == 0 ->
    exists perf,
      analyze_performance self = Ok (Some perf)
      /\ Performance.expectancy perf
         == Performance.net_profit perf
            / inject_Z (Performance.total_trades perf).
Proof.
  intros self NE NZ.
  destruct (analyze_performance_record self NE NZ) as [pf [E _]].
  eexists. split; [exact E |].
  cbn [Performance.expectancy Performance.net_profit
       Performance.total_trades].
  pose proof (pnl_counts (trades self)) as C.
  pose proof (series_sum_split (map Trade.pnl (trades self))) as Sp.
  fold (winning_pnl (trades self)) in Sp.
  fold (losing_pnl (trades self)) in Sp.
  pose proof (series_sum_nonpositive (map Trade.pnl (trades self))) as Ln.
  fold (losing_pnl (trades self)) in Ln.
  replace (Z.of_nat (length (trades self))
           - Z.of_nat (length (winning_pnl (trades self))))%Z
    with (Z.of_nat (length (losing_pnl (trades self)))) by lia.
  unfold series_mean. rewrite Sp.
  assert (T : inject_Z (Z.of_nat (length (trades self)))
              == inject_Z (Z.of_nat (length (winning_pnl (trades self))))
                 + inject_Z (Z.of_nat (length (losing_pnl (trades self)))))
    by (rewrite <- C; apply inject_nat_plus).
  assert (Tp : 0 < inject_Z (Z.of_nat (length (trades self)))).
  { destruct (trades self); [congruence | apply inject_nat_pos]. }
  set (gp := series_sum (winning_pnl (trades self))) in *.
  set (sl := series_sum (losing_pnl (trades self))) in *.
  set (t := inject_Z (Z.of_nat (length (trades self)))) in *.
  destruct (winning_pnl (trades self)) as [| w ws] eqn:W;
    destruct (losing_pnl (trades self)) as [| l ls] eqn:L.
  - exfalso. cbn [length] in T. rewrite T in Tp. vm_compute in Tp.
    discriminate Tp.
  - replace (0 <? Z.of_nat (length (@nil Q)))%Z with false by reflexivity.
    replace (0 <? Z.of_nat (length (l :: ls)))%Z with true by reflexivity.
    set (b := inject_Z (Z.of_nat (length (l :: ls)))) in *.
    assert (Bp : 0 < b) by apply inject_nat_pos.
    assert (G : gp == 0) by (subst gp; reflexivity).
    assert (A : Qabs (sl / b) == - (sl / b)).
    { apply Qabs_neg. apply Qle_shift_div_r; [exact Bp | lra]. }
    rewrite A, G. cbn [length Z.of_nat inject_Z] in T.
    assert (Tb : t == b) by (rewrite T; ring).
    rewrite Tb.
    change (inject_Z (Z.of_nat (length (@nil Q)))) with 0.
    field. lra.
  - replace (0 <? Z.of_nat (length (w :: ws)))%Z with true by reflexivity.
    replace (0 <? Z.of_nat (length (@nil Q)))%Z with false by reflexivity.
    set (a := inject_Z (Z.of_nat (length (w :: ws)))) in *.
    assert (Ap : 0 < a) by apply inject_nat_pos.
    assert (G : sl == 0) by (subst sl; reflexivity).
    rewrite G. cbn [length Z.of_nat inject_Z] in T.
    assert (Ta : t == a) by (rewrite T; ring).
    rewrite Ta. field. lra.
  - replace (0 <? Z.of_nat (length (w :: ws)))%Z with true by reflexivity.
    replace (0 <? Z.of_nat (length (l :: ls)))%Z with true by reflexivity.
    set (a := inject_Z (Z.of_nat (length (w :: ws)))) in *.
    set (b := inject_Z (Z.of_nat (length (l :: ls)))) in *.
    assert (Ap : 0 < a) by apply inject_nat_pos.
    assert (Bp : 0 < b) by apply inject_nat_pos.
    assert (A : Qabs (sl / b) == - (sl / b)).
    { apply Qabs_neg. apply Qle_shift_div_r; [exact Bp | lra]. }
    rewrite A, T. field. repeat split; lra.
Qed.

Lemma expectancy_is_mean_pnl_witness :
  exists perf,
    analyze_performance
      (set_trades engine0 [trade_win; trade_win; trade_loss])
    = Ok (Some perf)
    /\ Performance.expectancy perf
       == Performance.net_profit perf
          / inject_Z (Performance.total_trades perf).
Proof.
  apply (expectancy_is_mean_pnl
           (set_trades engine0 [trade_win; trade_win; trade_loss])).
  - discriminate.
  - vm_compute. discriminate.
Defined.



Lemma all_winning_filters (ts : list Trade.t) :
  (forall t, In t ts -> 0 < Trade.pnl t) ->
  winning_pnl ts = map Trade.pnl ts
  /\ losing_pnl ts = []
  /\ forall run,
       Forall (fun x => x = 0%Z) (loss_streak run (map Trade.pnl ts)).
Proof.
  unfold winning_pnl, losing_pnl.
  induction ts as [| t rest IH]; intro H.
  - repeat split. intro run. constructor.
  - assert (P : 0 < Trade.pnl t) by (apply H; left; reflexivity).
    destruct IH as [A [B C]]; [intros u Hu; apply H; right; exact Hu |].
    cbn [map filter loss_streak].
    replace (Qltb 0 (Trade.pnl t)) with true
      by (symmetry; apply Qltb_lt, P).
    replace (Qleb (Trade.pnl t) 0) with false
      by (symmetry; apply Qleb_gt, P).
    rewrite A, B. repeat split. intro run. constructor; [reflexivity |].
    apply C.
Qed.

Lemma fold_max_zeros (xs : list Z) :
  Forall (fun x => x = 0%Z) xs -> fold_left Z.max xs 0%Z = 0%Z.
Proof.
  induction 1 as [| x rest Hx _ IH]; [reflexivity |].
  cbn [fold_left]. subst x. exact IH.
Qed.

(** X29.  For a non-empty log in which every trade has a positive P&L the
    summary reports no losing trade, a win rate of 100, a profit factor of
    positive infinity, an average loss of 0 and a longest losing streak of
    0. *)
Theorem all_winning_summary :
  forall self,
    trades self <> [] ->
    ~ initial_capital self == 0 ->
    (forall t, In t (trades self) -> 0 < Trade.pnl t) ->
    exists perf,
      analyze_performance self = Ok (Some perf)
      /\ Performance.losing_trades perf = 0%Z
      /\ Performance.win_rate perf == 100
      /\ Performance.profit_factor perf = PosInf
      /\ Performance.avg_loss perf = 0
      /\ Performance.max_consecutive_losses perf = 0%Z.
Proof.
  intros self NE NZ Hw.
  destruct (analyze_performance_record self NE NZ) as [pf [E PF]].
  destruct (all_winning_filters (trades self) Hw) as [A [B C]].
  eexists. split; [exact E |].
  cbn [Performance.losing_trades Performance.win_rate
       Performance.profit_factor Performance.avg_loss
       Performance.max_consecutive_losses].
  rewrite A, B in *. rewrite length_map.
  assert (Tp : 0 < inject_Z (Z.of_nat (length (trades self)))).
  { destruct (trades self); [congruence | apply inject_nat_pos]. }
  split; [lia |]. split; [| split; [| split]].
  - field. intro Z. rewrite Z in Tp. apply (Qlt_irrefl _ Tp).
  - exact PF.
  - rewrite Z.sub_diag. reflexivity.
  - apply fold_max_zeros, C.
Qed.

Lemma all_winning_summary_witness :
  exists perf,
    analyze_performance engine_after_trade = Ok (Some perf)
    /\ Performance.losing_trades perf = 0%Z
    /\ Performance.profit_factor perf = PosInf.
Proof.
  destruct (all_winning_summary engine_after_trade)
    as [perf [E [L [_ [P _]]]]].
  - discriminate.
  - vm_compute. discriminate.
  - intros t H. vm_compute in H. destruct H as [H | []]. subst t.
    vm_compute. reflexivity.
  - exists perf. split; [exact E |]. split; assumption.
Defined.
